(** * The referral backend: order creation and the commission allocator

    A shallow embedding of the Express application (the complete version of
    the server, with [POST /order]) and the properties of its upline walk
    and commission allocation.

    JavaScript numbers are IEEE 754 binary64 values; they are modelled by
    Rocq's primitive floats, whose operations are the same binary64
    operations with round-to-nearest-even.  Request bodies are parsed JSON,
    so every field is a JavaScript value that may be absent. *)

Set Warnings "-inexact-float".
From Stdlib Require Import Floats String List Bool Arith ZArith QArith Qpower
  Lqa Lia.
Import ListNotations.
Close Scope Q_scope.
Local Open Scope string_scope.
Local Open Scope list_scope.

(** ** JavaScript values *)

Module Js.

(** What [express.json()] can put in a body field: [Undefined] is an absent
    field.  Arrays and objects are kept as [Obj], carrying the string that
    their conversion to a primitive yields; it is all [Number] looks at. *)
Inductive value : Type :=
| Undefined
| Null
| Bool (b : bool)
| Num (x : float)
| Str (s : string)
| Obj (prim : string).

(** ToBoolean: [!v] is [negb (truthy v)]. *)
Definition truthy (v : value) : bool :=
  match v with
  | Undefined | Null => false
  | Bool b => b
  | Num x => negb (PrimFloat.is_zero x || PrimFloat.is_nan x)
  | Str s => negb (s =? EmptyString)%string
  | Obj _ => true
  end.

(** [v || null] *)
Definition or_null (v : value) : value :=
  if truthy v then v else Null.

(** [v === w].  Values of different types are never strictly equal and
    numbers compare as IEEE numbers.  The handlers only compare a stored
    value with a value parsed from the current request, or with a user's
    code (a string), so two arrays or objects they compare are never the
    same reference: they are not equal. *)
Definition strict_eq (v w : value) : bool :=
  match v, w with
  | Undefined, Undefined => true
  | Null, Null => true
  | Bool a, Bool b => Bool.eqb a b
  | Num x, Num y => PrimFloat.eqb x y
  | Str s, Str t => (s =? t)%string
  | _, _ => false
  end.

Section Conversions.

(** The runtime's conversion of a string to a number (StringToNumber). *)
Variable StringToNumber : string -> float.

(** [Number(v)] *)
Definition Number (v : value) : float :=
  match v with
  | Undefined => nan
  | Null => 0%float
  | Bool b => if b then 1%float else 0%float
  | Num x => x
  | Str s => StringToNumber s
  | Obj prim => StringToNumber prim
  end.

End Conversions.

End Js.

Import Js.

(** ** Configuration and storage *)

(** [const COMMISSION_LEVELS = [0.10, 0.05, 0.02]; // L1, L2, L3] *)
Definition COMMISSION_LEVELS : list float := [0.10; 0.05; 0.02]%float.

(** [{ id, name, email, passwordHash, code, referrerCode, createdAt }];
    the password hash and the creation date are never read by the handlers
    modelled here and are left out, as are the dates of the other records. *)
Module User.
Record t : Type := mk {
  id : nat;
  name : value;
  email : value;
  code : string;
  referrerCode : value
}.
End User.

(** [{ code, timestamp, ip }] *)
Module Click.
Record t : Type := mk { code : string }.
End Click.

(** [{ id, amount, code, buyerEmail, createdAt }] *)
Module Order.
Record t : Type := mk {
  id : nat;
  amount : float;
  code : value;
  buyerEmail : value
}.
End Order.

(** [{ orderId, earnerUserId, level, percent, amount }] *)
Module Commission.
Record t : Type := mk {
  orderId : nat;
  earnerUserId : nat;
  level : nat;
  percent : float;
  amount : float
}.
End Commission.

(** An entry of the [payouts] array of the response:
    [{ userId, level, amount }]. *)
Module Payout.
Record t : Type := mk {
  userId : nat;
  level : nat;
  amount : float
}.
End Payout.

(** The four in-memory arrays. *)
Record state : Type := mkState {
  users : list User.t;
  clicks : list Click.t;
  orders : list Order.t;
  commissions : list Commission.t
}.

Definition initial_state : state := mkState [] [] [] [].

(** [a.push(x)] *)
Definition push {A : Type} (a : list A) (x : A) : list A := a ++ [x].

(** ** Helpers *)

(** [users.find(u => u.code === code)] *)
Definition findUserByCode (users : list User.t) (code : value) : option User.t :=
  find (fun u => strict_eq (Str (User.code u)) code) users.

(** The [for] loop of [buildUpline], by the number of iterations left
    ([levels - i]); the result is what the loop pushes from here on. *)
Fixpoint buildUpline_from (users : list User.t) (currentCode : value)
    (left : nat) : list User.t :=
  match left with
  | O => []
  | S left' =>
      if negb (truthy currentCode) then []
      else
        match findUserByCode users currentCode with
        | None => []
        | Some referrer =>
            referrer ::
            buildUpline_from users (or_null (User.referrerCode referrer)) left'
        end
  end.

Definition buildUpline (users : list User.t) (refCode : value) (levels : nat)
    : list User.t :=
  buildUpline_from users refCode levels.

(** ** Requests and responses *)

Record OrderBody : Type := mkOrderBody {
  body_amount : value;
  body_code : value;
  body_buyerEmail : value
}.

Record SignupBody : Type := mkSignupBody {
  body_name : value;
  body_email : value;
  body_password : value;
  body_ref : value
}.

Inductive response : Type :=
| Error (status : nat) (error : string)
| OrderCreated (orderId : nat) (amount : float) (code : value)
    (payouts : list Payout.t)
| SignedUp (user : User.t)
| ClickRecorded (totalClicks : nat)
| Stats (totalClicks orderCount : nat) (revenue commissionTotal : float)
| Unmodelled.

(** ** [POST /order] *)

(** [upline.forEach((uplineUser, idx) => ...)], from index [idx] on, on the
    commission log and the [payouts] array built so far. *)
Fixpoint forEach_upline (order : Order.t) (upline : list User.t) (idx : nat)
    (commissions : list Commission.t) (payouts : list Payout.t)
    : list Commission.t * list Payout.t :=
  match upline with
  | [] => (commissions, payouts)
  | uplineUser :: rest =>
      let level := idx + 2 in
      let percent := nth (idx + 1) COMMISSION_LEVELS 0%float in
      let amt := (Order.amount order * percent)%float in
      if (0 <? amt)%float then
        forEach_upline order rest (S idx)
          (push commissions
             (Commission.mk (Order.id order) (User.id uplineUser) level percent amt))
          (push payouts (Payout.mk (User.id uplineUser) level amt))
      else forEach_upline order rest (S idx) commissions payouts
  end.

Section Handlers.

Variable StringToNumber : string -> float.

Definition post_order (st : state) (body : OrderBody) : state * response :=
  let amount := body_amount body in
  let code := body_code body in
  let buyerEmail := body_buyerEmail body in
  if negb (truthy amount) || negb (truthy code) then
    (st, Error 400 "amount & code required")
  else
    match findUserByCode (users st) code with
    | None => (st, Error 404 "Referral code not found")
    | Some owner =>
        let order :=
          Order.mk (length (orders st) + 1) (Number StringToNumber amount)
            code (or_null buyerEmail) in
        let orders' := push (orders st) order in
        let upline :=
          buildUpline (users st) (User.referrerCode owner)
            (length COMMISSION_LEVELS) in
        let l1Percent := nth 0 COMMISSION_LEVELS 0%float in
        let l1Amount := (Order.amount order * l1Percent)%float in
        let '(commissions1, payouts1) :=
          if (0 <? l1Amount)%float then
            (push (commissions st)
               (Commission.mk (Order.id order) (User.id owner) 1 l1Percent l1Amount),
             push [] (Payout.mk (User.id owner) 1 l1Amount))
          else (commissions st, []) in
        let '(commissions2, payouts2) :=
          forEach_upline order upline 0 commissions1 payouts1 in
        (mkState (users st) (clicks st) orders' commissions2,
         OrderCreated (Order.id order) (Order.amount order) code payouts2)
    end.

(** [POST /auth/signup].  [genCode] is the code [nanoid(8)] returns in
    this request.  [bcrypt.hash] rejects a password that is not a string:
    the handler then throws before any user is stored, and no answer is
    modelled.  The handler is taken as one step (its only suspension is the
    hash). *)
Definition post_signup (st : state) (body : SignupBody) (genCode : string)
    : state * response :=
  let name := body_name body in
  let email := body_email body in
  let password := body_password body in
  let ref := body_ref body in
  if negb (truthy email) || negb (truthy password) || negb (truthy name) then
    (st, Error 400 "name, email & password required")
  else if existsb (fun u => strict_eq (User.email u) email) (users st) then
    (st, Error 409 "email exists")
  else
    match password with
    | Str _ =>
        let code := genCode in
        let user :=
          User.mk (length (users st) + 1) name email code (or_null ref) in
        (mkState (push (users st) user) (clicks st) (orders st) (commissions st),
         SignedUp user)
    | _ => (st, Unmodelled)
    end.

(** [GET /click/:code] *)
Definition get_click (st : state) (code : string) : state * response :=
  match findUserByCode (users st) (Str code) with
  | None => (st, Error 404 "Referral code not found")
  | Some owner =>
      let clicks' := push (clicks st) (Click.mk code) in
      let total :=
        length (filter (fun c => (Click.code c =? code)%string) clicks') in
      (mkState (users st) clicks' (orders st) (commissions st),
       ClickRecorded total)
  end.

(** [GET /stats/:code]; [reduce((sum, x) => sum + x.amount, 0)] is the
    left fold from 0. *)
Definition get_stats (st : state) (code : string) : state * response :=
  match findUserByCode (users st) (Str code) with
  | None => (st, Error 404 "Referral code not found")
  | Some owner =>
      let totalClicks :=
        length (filter (fun c => (Click.code c =? code)%string) (clicks st)) in
      let myOrders :=
        filter (fun o => strict_eq (Order.code o) (Str code)) (orders st) in
      let orderCount := length myOrders in
      let revenue :=
        fold_left (fun sum o => (sum + Order.amount o)%float) myOrders 0%float in
      let myUser := owner in
      let myComms :=
        fold_left (fun sum c => (sum + Commission.amount c)%float)
          (filter (fun c => Nat.eqb (Commission.earnerUserId c) (User.id myUser))
             (commissions st))
          0%float in
      (st, Stats totalClicks orderCount revenue myComms)
  end.

(** The requests of the API.  The remaining routes ([GET /],
    [POST /auth/login], [GET /me], [GET /me/stats]) only read the arrays;
    what they answer is not modelled. *)
Inductive request : Type :=
| PostSignup (body : SignupBody) (genCode : string)
| GetClick (code : string)
| GetStats (code : string)
| PostOrder (body : OrderBody)
| GetRoot
| PostLogin
| GetMe
| GetMeStats.

Definition handle (st : state) (r : request) : state * response :=
  match r with
  | PostSignup body genCode => post_signup st body genCode
  | GetClick code => get_click st code
  | GetStats code => get_stats st code
  | PostOrder body => post_order st body
  | GetRoot | PostLogin | GetMe | GetMeStats => (st, Unmodelled)
  end.

(** The state after a sequence of requests, handled one after the other. *)
Definition run (reqs : list request) (st : state) : state :=
  fold_left (fun s r => fst (handle s r)) reqs st.

End Handlers.

(** ** Concrete directories

    The closed examples below send number amounts only, so the conversion of
    strings is never consulted; they run the handlers with [unparsed]. *)

Definition unparsed : string -> float := fun _ => nan.

(** A signup request of a new user with password ["secret"]; [code] is the
    referral code the generator hands out. *)
Definition signup (name email code : string) (ref : value) : request :=
  PostSignup (mkSignupBody (Str name) (Str email) (Str "secret") ref) code.

(** A refers B refers C (refers D). *)
Definition abc_requests : list request :=
  [ signup "A" "a@example.org" "AAA" Undefined;
    signup "B" "b@example.org" "BBB" (Str "AAA");
    signup "C" "c@example.org" "CCC" (Str "BBB") ].

Definition abc_state : state := run unparsed abc_requests initial_state.

Definition abcd_state : state :=
  run unparsed [signup "D" "d@example.org" "DDD" (Str "CCC")] abc_state.

(** A user who signed up with their own code as referrer (the generator
    returned the code they had sent as [ref]). *)
Definition self_state : state :=
  run unparsed [signup "U" "u@example.org" "UUU" (Str "UUU")] initial_state.

(** A user whose referrer code belongs to nobody. *)
Definition dangling_state : state :=
  run unparsed [signup "E" "e@example.org" "EEE" (Str "ZZZ")] initial_state.

Definition order_of (amount : float) (code : string) : OrderBody :=
  mkOrderBody (Num amount) (Str code) Undefined.

(** The smallest positive binary64 number, [Number.MIN_VALUE] (5e-324). *)
Definition MIN_VALUE : float := 0x1p-1074%float.

(** The exact rational value of a finite binary64 number. *)
Definition exact_value (x : float) : Q :=
  match Prim2SF x with
  | S754_finite s m e =>
      (((if s then Z.neg m else Z.pos m) # 1) * Qpower 2 e)%Q
  | _ => 0%Q
  end.

(** ** Authentication and the private routes *)

(** What [jwt.verify] returns for a token the server signed: the fields
    [signJWT] put in it, [{ id, email, code }]. *)
Module Payload.
Record t : Type := mk {
  id : nat;
  email : value;
  code : string
}.
End Payload.

(** How the [auth] middleware ends: with an answer of its own, or with
    [next()] after setting [req.user]. *)
Inductive auth_result : Type :=
| Denied (status : nat) (error : string)
| Next (user : Payload.t).

Section Auth.

(** [jwt.verify(token, JWT_SECRET)]; [None] when it throws. *)
Variable verify : string -> option Payload.t.

(** [function auth(req, res, next)], on the [authorization] header of the
    request ([None] when the request has none). *)
Definition auth (authorization : option string) : auth_result :=
  let header :=
    match authorization with
    | Some h => h
    | None => EmptyString
    end in
  let token :=
    if String.prefix "Bearer " header
    then Some (substring 7 (String.length header - 7) header)
    else None in
  match token with
  | None => Denied 401 "No token"
  | Some t =>
      if (t =? EmptyString)%string then Denied 401 "No token"
      else
        match verify t with
        | Some payload => Next payload
        | None => Denied 401 "Invalid token"
        end
  end.

End Auth.

(** The answers of the private routes. *)
Inductive private_response : Type :=
| PrivateError (status : nat) (error : string)
| Me (id : nat) (email : value) (code : string) (referrerCode : value)
| MeStats (code : string) (clicks referrals orders : nat)
    (revenueDriven commissionsEarned : float)
    (commissionBreakdown : list Commission.t).

(** [GET /me], after [auth]: [user] is [req.user]. *)
Definition get_me (st : state) (user : Payload.t) : private_response :=
  match find (fun u => User.id u =? Payload.id user)%nat (users st) with
  | None => PrivateError 404 "User not found"
  | Some me =>
      Me (User.id me) (User.email me) (User.code me) (User.referrerCode me)
  end.

(** [GET /me/stats], after [auth]. *)
Definition get_me_stats (st : state) (user : Payload.t) : private_response :=
  match find (fun u => User.id u =? Payload.id user)%nat (users st) with
  | None => PrivateError 404 "User not found"
  | Some me =>
      let myClicks :=
        length (filter (fun c => (Click.code c =? User.code me)%string)
                  (clicks st)) in
      let myOrders :=
        filter (fun o => strict_eq (Order.code o) (Str (User.code me)))
          (orders st) in
      let myRevenue :=
        fold_left (fun sum o => (sum + Order.amount o)%float) myOrders 0%float in
      let myComms :=
        filter (fun c => (Commission.earnerUserId c =? User.id me)%nat)
          (commissions st) in
      let myCommTotal :=
        fold_left (fun sum c => (sum + Commission.amount c)%float) myComms
          0%float in
      let myReferrals :=
        length (filter (fun u => strict_eq (User.referrerCode u)
                                   (Str (User.code me))) (users st)) in
      MeStats (User.code me) myClicks myReferrals (length myOrders) myRevenue
        myCommTotal myComms
  end.

(** A private route as the server mounts it: [auth], then the handler. *)
Definition private_route (verify : string -> option Payload.t)
    (handler : state -> Payload.t -> private_response)
    (st : state) (authorization : option string) : private_response :=
  match auth verify authorization with
  | Denied status error => PrivateError status error
  | Next user => handler st user
  end.

(** ** The invariant of the arrays

    What the proofs carry along a run of the server: ids follow the
    positions, stored users passed the checks of signup, every order is
    attributed to a code that resolves, and every commission record points
    to its order and its earner and is the order's amount times the percent
    of its level; no order has two records of the same level. *)

Definition consistent (st : state) : Prop :=
  map User.id (users st) = seq 1 (length (users st))
  /\ map Order.id (orders st) = seq 1 (length (orders st))
  /\ Forall (fun u =>
               truthy (User.name u) = true
               /\ truthy (User.email u) = true
               /\ (User.referrerCode u = Null
                   \/ truthy (User.referrerCode u) = true)) (users st)
  /\ Forall (fun o =>
               truthy (Order.code o) = true
               /\ exists u, findUserByCode (users st) (Order.code o) = Some u)
       (orders st)
  /\ Forall (fun c =>
               (exists u, nth_error (users st) (Commission.earnerUserId c - 1)
                          = Some u
                          /\ User.id u = Commission.earnerUserId c)
               /\ (exists o, nth_error (orders st) (Commission.orderId c - 1)
                             = Some o
                             /\ Order.id o = Commission.orderId c
                             /\ Commission.amount c =
                                (Order.amount o * Commission.percent c)%float)
               /\ 1 <= Commission.level c
               /\ Commission.level c <= length COMMISSION_LEVELS
               /\ Commission.percent c =
                  nth (Commission.level c - 1) COMMISSION_LEVELS 0%float)
       (commissions st)
  /\ NoDup (map (fun c => (Commission.orderId c, Commission.level c))
              (commissions st)).

(** * Properties *)

(** ** Binary64 facts *)

Lemma Prim2SF_zero : Prim2SF 0 = S754_zero false.
Proof. reflexivity. Qed.

(** A product with the constant 0 is never greater than 0: it is a zero or
    NaN. *)
Lemma mul_zero_not_positive (a : float) : (0 <? a * 0)%float = false.
Proof.
  rewrite FloatAxioms.ltb_spec, FloatAxioms.mul_spec, Prim2SF_zero.
  destruct (Prim2SF a) as [s | s | | s m e]; try reflexivity.
  all: destruct s; reflexivity.
Qed.

(** A positive product with a positive factor has a positive other factor. *)
Lemma positive_product (a p : float) :
  (0 <? p)%float = true -> (0 <? a * p)%float = true -> (0 <? a)%float = true.
Proof.
  rewrite !FloatAxioms.ltb_spec, FloatAxioms.mul_spec, Prim2SF_zero.
  destruct (Prim2SF a) as [sa | sa | | sa ma ea];
    destruct (Prim2SF p) as [sp | sp | | sp mp ep]; simpl;
    try discriminate;
    try (destruct sa; destruct sp; simpl; discriminate || reflexivity).
  all: destruct sp; try discriminate; destruct sa; try reflexivity.
  all: intros _; unfold SFmul, binary_round_aux; simpl xorb.
  all: repeat match goal with
         | |- context [let '(_, _) := ?x in _] => destruct x
         end.
  all: match goal with
       | |- context [match ?x with Z0 => _ | _ => _ end] => destruct x
       end.
  all: try discriminate.
  all: match goal with
       | |- context [if ?x then _ else _] => destruct x
       end; discriminate.
Qed.

(** *** No underflow above the subnormal range

    The rounding of a positive mantissa at an exponent of at least -1074
    (the exponent of the subnormal numbers) never gives zero. *)

Section Rounding.

Local Open Scope Z_scope.

Lemma shr_1_div2 (r : shr_record) :
  0 <= shr_m r -> shr_m (shr_1 r) = shr_m r / 2.
Proof.
  destruct r as [m rb s]. cbn [shr_m]. intros Hm. unfold shr_1.
  destruct m as [| p | p]; [reflexivity | | lia].
  destruct p as [p | p |]; cbn [shr_m].
  - change (Z.pos p~1) with (2 * Z.pos p + 1). apply Z.div_unique with 1; lia.
  - change (Z.pos p~0) with (2 * Z.pos p). apply Z.div_unique with 0; lia.
  - reflexivity.
Qed.

Lemma iter_shr_1_div (p : positive) (r : shr_record) :
  0 <= shr_m r ->
  shr_m (SpecFloat.iter_pos shr_1 p r) = shr_m r / 2 ^ Z.pos p.
Proof.
  revert r.
  induction p as [p IH | p IH |]; intros r Hr; cbn [SpecFloat.iter_pos].
  - assert (H1 : 0 <= shr_m (shr_1 r)).
    { rewrite shr_1_div2 by exact Hr. apply Z.div_pos; lia. }
    assert (H2 : 0 <= shr_m (SpecFloat.iter_pos shr_1 p (shr_1 r))).
    { rewrite IH by exact H1. apply Z.div_pos; [exact H1 | lia]. }
    rewrite IH by exact H2. rewrite IH by exact H1.
    rewrite shr_1_div2 by exact Hr.
    rewrite !Z.div_div by lia. f_equal.
    change (Z.pos p~1) with (2 * Z.pos p + 1).
    rewrite Z.pow_add_r, Z.pow_1_r by lia.
    replace (2 * Z.pos p) with (Z.pos p + Z.pos p) by lia.
    rewrite Z.pow_add_r by lia. ring.
  - assert (H1 : 0 <= shr_m (SpecFloat.iter_pos shr_1 p r)).
    { rewrite IH by exact Hr. apply Z.div_pos; [exact Hr | lia]. }
    rewrite IH by exact H1. rewrite IH by exact Hr.
    rewrite Z.div_div by lia. f_equal.
    change (Z.pos p~0) with (2 * Z.pos p).
    replace (2 * Z.pos p) with (Z.pos p + Z.pos p) by lia.
    rewrite Z.pow_add_r by lia. reflexivity.
  - rewrite shr_1_div2 by exact Hr. reflexivity.
Qed.

Lemma digits2_pos_le (p : positive) :
  2 ^ (Z.pos (digits2_pos p) - 1) <= Z.pos p.
Proof.
  induction p as [p IH | p IH |]; cbn [digits2_pos].
  - rewrite Pos2Z.inj_succ. change (Z.pos p~1) with (2 * Z.pos p + 1).
    replace (Z.succ (Z.pos (digits2_pos p)) - 1)
      with (Z.succ (Z.pos (digits2_pos p) - 1)) by lia.
    rewrite Z.pow_succ_r by lia. lia.
  - rewrite Pos2Z.inj_succ. change (Z.pos p~0) with (2 * Z.pos p).
    replace (Z.succ (Z.pos (digits2_pos p)) - 1)
      with (Z.succ (Z.pos (digits2_pos p) - 1)) by lia.
    rewrite Z.pow_succ_r by lia. lia.
  - reflexivity.
Qed.

Lemma shr_fexp_positive (m : positive) (e : Z) (l : location) :
  -1074 <= e ->
  exists m', shr_m (fst (shr_fexp prec emax (Z.pos m) e l)) = Z.pos m'
             /\ -1074 <= snd (shr_fexp prec emax (Z.pos m) e l).
Proof.
  intros He. unfold shr_fexp, shr, fexp, emin, prec, emax, Zdigits2.
  assert (Hm0 : shr_m (shr_record_of_loc (Z.pos m) l) = Z.pos m)
    by (destruct l as [| []]; reflexivity).
  destruct (Z.max (Z.pos (digits2_pos m) + e - 53) (3 - 1024 - 53) - e)
    as [| n | n] eqn:Hn; cbn [fst snd].
  - exists m. split; [exact Hm0 | exact He].
  - assert (Hlt : Z.pos n < Z.pos (digits2_pos m)) by lia.
    pose proof (digits2_pos_le m) as Hd.
    assert (Hpow : 2 ^ Z.pos n <= Z.pos m).
    { eapply Z.le_trans; [| exact Hd]. apply Z.pow_le_mono_r; lia. }
    rewrite iter_shr_1_div by (rewrite Hm0; lia). rewrite Hm0.
    assert (Hq : 1 <= Z.pos m / 2 ^ Z.pos n)
      by (apply Z.div_le_lower_bound; lia).
    destruct (Z.pos m / 2 ^ Z.pos n) as [| q | q]; try lia.
    exists q. split; [reflexivity | lia].
  - exists m. split; [exact Hm0 | exact He].
Qed.

Lemma round_nearest_even_positive (m : positive) (l : location) :
  exists m', round_nearest_even (Z.pos m) l = Z.pos m'.
Proof.
  destruct l as [| []]; cbn [round_nearest_even].
  - exists m. reflexivity.
  - destruct (Z.even (Z.pos m)); [exists m | exists (m + 1)%positive];
      reflexivity.
  - exists m. reflexivity.
  - exists (m + 1)%positive. reflexivity.
Qed.

Lemma binary_round_aux_positive (m : positive) (e : Z) :
  -1074 <= e ->
  SFltb (S754_zero false)
    (binary_round_aux prec emax false (Z.pos m) e loc_Exact) = true.
Proof.
  intros He. unfold binary_round_aux.
  destruct (shr_fexp_positive m e loc_Exact He) as (m1 & Hm1 & He1).
  destruct (shr_fexp prec emax (Z.pos m) e loc_Exact) as [mrs1 e1].
  cbn [fst snd] in Hm1, He1. rewrite Hm1.
  destruct (round_nearest_even_positive m1 (loc_of_shr_record mrs1))
    as (m2 & Hm2).
  rewrite Hm2.
  destruct (shr_fexp_positive m2 e1 loc_Exact He1) as (m3 & Hm3 & _).
  destruct (shr_fexp prec emax (Z.pos m2) e1 loc_Exact) as [mrs3 e3].
  cbn [fst] in Hm3. rewrite Hm3.
  destruct (e3 <=? emax - prec); reflexivity.
Qed.

(** A number at least [T] times a positive constant [c] is greater than 0
    when the exponents of [T] and [c] add up to at least -1074. *)
Lemma product_positive_above (T c a : float) (mT mc : positive) (eT ec : Z) :
  Prim2SF T = S754_finite false mT eT ->
  Prim2SF c = S754_finite false mc ec ->
  -1074 <= eT + ec ->
  (T <=? a)%float = true -> (0 <? a * c)%float = true.
Proof.
  intros HT Hc Hexp.
  rewrite FloatAxioms.leb_spec, FloatAxioms.ltb_spec, FloatAxioms.mul_spec,
    HT, Hc.
  change (Prim2SF 0) with (S754_zero false).
  destruct (Prim2SF a) as [s | s | | s m e]; try discriminate.
  - destruct s; [discriminate | reflexivity].
  - destruct s; [discriminate |]. unfold SFleb, SFcompare.
    destruct (eT ?= e) eqn:Hcmp; try discriminate; intros _.
    + apply Z.compare_eq in Hcmp. apply binary_round_aux_positive.
      change (-1074 <= e + ec). lia.
    + change (eT < e) in Hcmp. apply binary_round_aux_positive.
      change (-1074 <= e + ec). lia.
Qed.

End Rounding.

(** The three commissions of an amount of at least 1e-290 are greater than
    0: the guards [amt > 0] of the order handler pass for every amount that
    is not astronomically small. *)
Lemma schedule_products_positive (a : float) :
  (1e-290 <=? a)%float = true ->
  Forall (fun percent => (0 <? a * percent)%float = true) COMMISSION_LEVELS.
Proof.
  intros Ha. unfold COMMISSION_LEVELS.
  repeat (apply Forall_cons;
          [eapply (product_positive_above 1e-290%float);
           [vm_compute; reflexivity | vm_compute; reflexivity
           | vm_compute; discriminate | exact Ha] |]).
  apply Forall_nil.
Qed.

(** A number greater than 0 is truthy: it is neither a zero nor NaN. *)
Lemma positive_truthy (a : float) :
  (0 <? a)%float = true -> truthy (Num a) = true.
Proof.
  unfold truthy, is_zero, is_nan.
  rewrite FloatAxioms.ltb_spec, !FloatAxioms.eqb_spec, Prim2SF_zero.
  destruct (Prim2SF a) as [s | s | | s m e]; simpl; try discriminate.
  - destruct s; [discriminate | reflexivity].
  - destruct s; [discriminate |]. intros _. unfold SFeqb. simpl.
    rewrite Z.compare_refl, Pos.compare_cont_refl. reflexivity.
Qed.

(** ** The upline walk *)

Lemma last_cons {A : Type} (x d : A) (l : list A) : last (x :: l) d = last l x.
Proof.
  revert x d. induction l as [| y l IH]; intros x d; [reflexivity |].
  change (last (x :: y :: l) d) with (last (y :: l) d).
  rewrite (IH y d), (IH y x). reflexivity.
Qed.

Lemma buildUpline_from_length users currentCode left :
  length (buildUpline_from users currentCode left) <= left.
Proof.
  revert currentCode.
  induction left as [| n IH]; intros c; simpl; [lia |].
  destruct (truthy c); simpl; [| lia].
  destruct (findUserByCode users c) as [referrer |]; simpl; [| lia].
  specialize (IH (or_null (User.referrerCode referrer))). lia.
Qed.

Lemma buildUpline_from_stop users currentCode left :
  length (buildUpline_from users currentCode left) < left ->
  truthy (last (map (fun u => or_null (User.referrerCode u))
                 (buildUpline_from users currentCode left)) currentCode) = false
  \/ findUserByCode users
       (last (map (fun u => or_null (User.referrerCode u))
                (buildUpline_from users currentCode left)) currentCode) = None.
Proof.
  revert currentCode.
  induction left as [| n IH]; intros c; cbn [buildUpline_from]; [simpl; lia |].
  destruct (truthy c) eqn:Ht; cbn [negb]; [| now left].
  destruct (findUserByCode users c) as [referrer |] eqn:Hf; [| now right].
  cbn [map length]. intros Hlen. rewrite last_cons. apply IH. lia.
Qed.

(** C1 (amended): the upline walk stops when the current referrer code is
    falsy (null, absent, empty), when it resolves to no user, or when the
    loop has run [levels] times; the list [buildUpline] returns has at most
    [levels] entries, and whenever it has fewer, the code the walk stopped
    at is falsy or resolves to nobody.  Called from the order handler with
    the length of the commission schedule, it returns at most 3 users. *)
Theorem buildUpline_at_most_levels :
  forall (users : list User.t) (refCode : value) (levels : nat),
    length (buildUpline users refCode levels) <= levels
    /\ (length (buildUpline users refCode levels) < levels ->
        truthy (last (map (fun u => or_null (User.referrerCode u))
                       (buildUpline users refCode levels)) refCode) = false
        \/ findUserByCode users
             (last (map (fun u => or_null (User.referrerCode u))
                      (buildUpline users refCode levels)) refCode) = None)
    /\ length (buildUpline users refCode (length COMMISSION_LEVELS)) <= 3.
Proof.
  intros users refCode levels. unfold buildUpline. repeat split.
  - apply buildUpline_from_length.
  - apply buildUpline_from_stop.
  - apply (buildUpline_from_length users refCode (length COMMISSION_LEVELS)).
Qed.

(** C1 (as stated) fails: D was referred by C, C by B, B by A.  For an order
    attributed to D's code the handler walks from D's referrer code with
    [levels = 3] and gets three users, more than [levels - 1 = 2]. *)
Lemma buildUpline_three_ancestors :
  exists owner : User.t,
    findUserByCode (users abcd_state) (Str "DDD") = Some owner
    /\ map User.code
         (buildUpline (users abcd_state) (User.referrerCode owner)
            (length COMMISSION_LEVELS)) = ["CCC"; "BBB"; "AAA"]
    /\ length COMMISSION_LEVELS - 1 <
       length (buildUpline (users abcd_state) (User.referrerCode owner)
                 (length COMMISSION_LEVELS)).
Proof.
  eexists. split; [reflexivity |]. split; [reflexivity |].
  vm_compute. lia.
Qed.

(** ** Order creation *)

(** An ancestor whose schedule index is past the end of the schedule gets
    percent [undefined ?? 0] and is skipped, and so is everyone after. *)
Lemma forEach_upline_beyond order upline idx commissions payouts :
  length COMMISSION_LEVELS <= idx + 1 ->
  forEach_upline order upline idx commissions payouts = (commissions, payouts).
Proof.
  revert idx. induction upline as [| u rest IH]; intros idx Hidx; [reflexivity |].
  cbn [forEach_upline].
  rewrite (nth_overflow COMMISSION_LEVELS 0%float Hidx), mul_zero_not_positive.
  apply IH. lia.
Qed.

Section OrderProperties.

Variable StringToNumber : string -> float.

(** What the handler does once validation and the lookup of the code owner
    have passed. *)
Lemma post_order_created st body owner :
  truthy (body_amount body) = true ->
  truthy (body_code body) = true ->
  findUserByCode (users st) (body_code body) = Some owner ->
  post_order StringToNumber st body =
    (let order :=
       Order.mk (length (orders st) + 1) (Number StringToNumber (body_amount body))
         (body_code body) (or_null (body_buyerEmail body)) in
     let first :=
       if (0 <? Order.amount order * 0.10)%float then
         ((commissions st) ++
            [Commission.mk (Order.id order) (User.id owner) 1 0.10%float
               (Order.amount order * 0.10)%float],
          [Payout.mk (User.id owner) 1 (Order.amount order * 0.10)%float])
       else (commissions st, []) in
     let r :=
       forEach_upline order
         (buildUpline (users st) (User.referrerCode owner) 3) 0
         (fst first) (snd first) in
     (mkState (users st) (clicks st) (orders st ++ [order]) (fst r),
      OrderCreated (Order.id order) (Order.amount order) (body_code body)
        (snd r))).
Proof.
  intros Ha Hc Hf. unfold post_order. rewrite Ha, Hc, Hf.
  cbn [negb orb length COMMISSION_LEVELS nth push app Order.amount Order.id fst snd].
  destruct (0 <? Number StringToNumber (body_amount body) * 0.10)%float;
    cbv zeta;
    match goal with
    | |- (let '(c, p) := ?X in _) = _ => rewrite (surjective_pairing X)
    end; reflexivity.
Qed.

(** The walk from the owner's referrer code when the first two codes
    resolve: the two ancestors, then whatever a third iteration finds. *)
Lemma buildUpline_two_ancestors users refCode parent grandparent :
  truthy refCode = true ->
  findUserByCode users refCode = Some parent ->
  truthy (User.referrerCode parent) = true ->
  findUserByCode users (User.referrerCode parent) = Some grandparent ->
  buildUpline users refCode 3 =
    parent :: grandparent ::
    buildUpline_from users (or_null (User.referrerCode grandparent)) 1.
Proof.
  intros Ht Hf Ht' Hf'. unfold buildUpline. cbn [buildUpline_from].
  assert (Hor : or_null (User.referrerCode parent) = User.referrerCode parent)
    by (unfold or_null; rewrite Ht'; reflexivity).
  rewrite Ht, Hf, Hor, Ht', Hf'. reflexivity.
Qed.

(** Three positive commissions over a chain of two ancestors. *)
Lemma post_order_three_levels :
  forall (st : state) (body : OrderBody) (owner parent grandparent : User.t),
    truthy (body_amount body) = true ->
    truthy (body_code body) = true ->
    findUserByCode (users st) (body_code body) = Some owner ->
    truthy (User.referrerCode owner) = true ->
    findUserByCode (users st) (User.referrerCode owner) = Some parent ->
    truthy (User.referrerCode parent) = true ->
    findUserByCode (users st) (User.referrerCode parent) = Some grandparent ->
    (0 <? Number StringToNumber (body_amount body) * 0.10)%float = true ->
    (0 <? Number StringToNumber (body_amount body) * 0.05)%float = true ->
    (0 <? Number StringToNumber (body_amount body) * 0.02)%float = true ->
    snd (post_order StringToNumber st body) =
      OrderCreated (length (orders st) + 1)
        (Number StringToNumber (body_amount body)) (body_code body)
        [ Payout.mk (User.id owner) 1
            (Number StringToNumber (body_amount body) * 0.10)%float;
          Payout.mk (User.id parent) 2
            (Number StringToNumber (body_amount body) * 0.05)%float;
          Payout.mk (User.id grandparent) 3
            (Number StringToNumber (body_amount body) * 0.02)%float ]
    /\ commissions (fst (post_order StringToNumber st body)) =
        commissions st ++
        [ Commission.mk (length (orders st) + 1) (User.id owner) 1 0.10%float
            (Number StringToNumber (body_amount body) * 0.10)%float;
          Commission.mk (length (orders st) + 1) (User.id parent) 2 0.05%float
            (Number StringToNumber (body_amount body) * 0.05)%float;
          Commission.mk (length (orders st) + 1) (User.id grandparent) 3
            0.02%float
            (Number StringToNumber (body_amount body) * 0.02)%float ].
Proof.
  intros st body owner parent grandparent Ha Hc Hown Ht1 Hf1 Ht2 Hf2 H1 H2 H3.
  rewrite (post_order_created st body owner Ha Hc Hown).
  rewrite (buildUpline_two_ancestors _ _ _ _ Ht1 Hf1 Ht2 Hf2).
  cbv zeta. cbn [Order.amount Order.id]. rewrite H1.
  cbn [forEach_upline fst snd Nat.add nth COMMISSION_LEVELS Order.amount
       Order.id push].
  rewrite H2, H3.
  rewrite forEach_upline_beyond by (simpl; lia).
  unfold push. cbn [fst snd app commissions]. rewrite <- !app_assoc.
  split; reflexivity.
Qed.

(** What [forEach] adds: records and payouts of positive amount, at levels
    from [idx + 2] up to the length of the schedule. *)
Lemma forEach_upline_acc order upline idx commissions payouts :
  exists cs ps,
    forEach_upline order upline idx commissions payouts =
      (commissions ++ cs, payouts ++ ps)
    /\ Forall (fun c => (0 <? Commission.amount c)%float = true
                        /\ idx + 2 <= Commission.level c
                        /\ Commission.level c <= length COMMISSION_LEVELS) cs
    /\ Forall (fun p => idx + 2 <= Payout.level p) ps
    /\ map Commission.amount cs = map Payout.amount ps.
Proof.
  revert idx commissions payouts.
  induction upline as [| u rest IH]; intros idx c p.
  - exists [], []. rewrite !app_nil_r. repeat split; constructor.
  - cbn [forEach_upline].
    destruct (0 <? Order.amount order * nth (idx + 1) COMMISSION_LEVELS 0)%float
      eqn:Hpos.
    + assert (Hidx : idx + 1 < length COMMISSION_LEVELS).
      { destruct (Nat.lt_ge_cases (idx + 1) (length COMMISSION_LEVELS))
          as [Hlt | Hge]; [exact Hlt |].
        rewrite (nth_overflow COMMISSION_LEVELS 0%float Hge),
          mul_zero_not_positive in Hpos. discriminate. }
      change (length COMMISSION_LEVELS) with 3 in Hidx.
      destruct (IH (S idx) (push c
                 (Commission.mk (Order.id order) (User.id u) (idx + 2)
                    (nth (idx + 1) COMMISSION_LEVELS 0%float)
                    (Order.amount order * nth (idx + 1) COMMISSION_LEVELS 0)%float))
                 (push p (Payout.mk (User.id u) (idx + 2)
                    (Order.amount order * nth (idx + 1) COMMISSION_LEVELS 0)%float)))
        as (cs & ps & Heq & Hcs & Hps & Hamt).
      eexists (_ :: cs), (_ :: ps). rewrite Heq. unfold push.
      rewrite <- !app_assoc. split; [reflexivity |]. split; [| split].
      * constructor; [cbn; repeat split; [exact Hpos | lia | lia] |].
        change (length COMMISSION_LEVELS) with 3.
        eapply Forall_impl; [| exact Hcs]. cbn. intros x (? & ? & ?).
        repeat split; [assumption | lia | assumption].
      * constructor; [cbn; lia |].
        eapply Forall_impl; [| exact Hps]. cbn. intros; lia.
      * cbn [map Commission.amount Payout.amount]. rewrite Hamt. reflexivity.
    + destruct (IH (S idx) c p) as (cs & ps & Heq & Hcs & Hps & Hamt).
      exists cs, ps. split; [exact Heq |]. split; [| split].
      * eapply Forall_impl; [| exact Hcs]. cbn. intros x (? & ? & ?).
        repeat split; [assumption | lia | assumption].
      * eapply Forall_impl; [| exact Hps]. cbn. intros; lia.
      * exact Hamt.
Qed.

(** The payouts [forEach] adds, in closed form: the first two members of
    the upline at levels 2 and 3, when their commission is positive. *)
Lemma forEach_upline_payouts order upline commissions payouts :
  snd (forEach_upline order upline 0 commissions payouts) =
    payouts ++
    filter (fun p => (0 <? Payout.amount p)%float)
      match upline with
      | [] => []
      | u1 :: rest =>
          Payout.mk (User.id u1) 2 (Order.amount order * 0.05)%float ::
          match rest with
          | [] => []
          | u2 :: _ =>
              [Payout.mk (User.id u2) 3 (Order.amount order * 0.02)%float]
          end
      end.
Proof.
  destruct upline as [| u1 [| u2 rest]];
    cbn [forEach_upline filter Payout.amount Nat.add nth COMMISSION_LEVELS].
  - rewrite app_nil_r. reflexivity.
  - destruct (0 <? Order.amount order * 0.05)%float; cbn [snd];
      [reflexivity | rewrite app_nil_r; reflexivity].
  - rewrite !forEach_upline_beyond by (simpl; lia).
    destruct (0 <? Order.amount order * 0.05)%float;
      destruct (0 <? Order.amount order * 0.02)%float;
      unfold push; cbn [snd]; rewrite <- ?app_assoc, ?app_nil_r; reflexivity.
Qed.

(** The three ways [POST /order] can end. *)
Lemma post_order_cases st body :
  (truthy (body_amount body) && truthy (body_code body) = false
   /\ post_order StringToNumber st body =
      (st, Error 400 "amount & code required"))
  \/ (truthy (body_amount body) = true /\ truthy (body_code body) = true
      /\ findUserByCode (users st) (body_code body) = None
      /\ post_order StringToNumber st body =
         (st, Error 404 "Referral code not found"))
  \/ (exists owner,
        truthy (body_amount body) = true /\ truthy (body_code body) = true
        /\ findUserByCode (users st) (body_code body) = Some owner).
Proof.
  destruct (truthy (body_amount body)) eqn:Ha.
  2: { left. split; [reflexivity |]. unfold post_order. rewrite Ha.
       reflexivity. }
  destruct (truthy (body_code body)) eqn:Hc.
  2: { left. split; [reflexivity |]. unfold post_order. rewrite Ha, Hc.
       reflexivity. }
  destruct (findUserByCode (users st) (body_code body)) as [owner |] eqn:Hf.
  - right. right. exists owner. auto.
  - right. left. repeat split. unfold post_order. rewrite Ha, Hc, Hf.
    reflexivity.
Qed.

(** C2 (amended): for every successful order whose three commissions
    amount × 0.10, amount × 0.05 and amount × 0.02 are greater than 0, and
    whose code owner has a referrer chain of length at least 2, the
    payouts array has exactly 3 entries, for the owner, the parent and the
    grandparent, at levels 1, 2, 3 with percents 0.10, 0.05, 0.02 applied
    in that order; the same three records are appended to the commission
    log. *)
Theorem order_three_level_payouts :
  forall (st : state) (body : OrderBody) (owner parent grandparent : User.t),
    truthy (body_amount body) = true ->
    truthy (body_code body) = true ->
    findUserByCode (users st) (body_code body) = Some owner ->
    truthy (User.referrerCode owner) = true ->
    findUserByCode (users st) (User.referrerCode owner) = Some parent ->
    truthy (User.referrerCode parent) = true ->
    findUserByCode (users st) (User.referrerCode parent) = Some grandparent ->
    (0 <? Number StringToNumber (body_amount body) * 0.10)%float = true ->
    (0 <? Number StringToNumber (body_amount body) * 0.05)%float = true ->
    (0 <? Number StringToNumber (body_amount body) * 0.02)%float = true ->
    snd (post_order StringToNumber st body) =
      OrderCreated (length (orders st) + 1)
        (Number StringToNumber (body_amount body)) (body_code body)
        [ Payout.mk (User.id owner) 1
            (Number StringToNumber (body_amount body) * 0.10)%float;
          Payout.mk (User.id parent) 2
            (Number StringToNumber (body_amount body) * 0.05)%float;
          Payout.mk (User.id grandparent) 3
            (Number StringToNumber (body_amount body) * 0.02)%float ]
    /\ commissions (fst (post_order StringToNumber st body)) =
        commissions st ++
        [ Commission.mk (length (orders st) + 1) (User.id owner) 1 0.10%float
            (Number StringToNumber (body_amount body) * 0.10)%float;
          Commission.mk (length (orders st) + 1) (User.id parent) 2 0.05%float
            (Number StringToNumber (body_amount body) * 0.05)%float;
          Commission.mk (length (orders st) + 1) (User.id grandparent) 3
            0.02%float
            (Number StringToNumber (body_amount body) * 0.02)%float ].
Proof. exact post_order_three_levels. Qed.

(** C3 (amended): referral cycles are not detected.  For a user U whose
    referrerCode equals U's own code, a successful order attributed to U's
    code whose three commissions amount × 0.10, amount × 0.05 and
    amount × 0.02 are greater than 0 pays U once per level until the level
    cap is hit: U receives the payouts of levels 1, 2 and 3, of 10%, 5% and
    2% of the order amount, all with U's userId. *)
Theorem self_referral_paid_at_every_level :
  forall (st : state) (body : OrderBody) (U : User.t),
    truthy (body_amount body) = true ->
    truthy (body_code body) = true ->
    body_code body = Str (User.code U) ->
    findUserByCode (users st) (body_code body) = Some U ->
    User.referrerCode U = Str (User.code U) ->
    (0 <? Number StringToNumber (body_amount body) * 0.10)%float = true ->
    (0 <? Number StringToNumber (body_amount body) * 0.05)%float = true ->
    (0 <? Number StringToNumber (body_amount body) * 0.02)%float = true ->
    snd (post_order StringToNumber st body) =
      OrderCreated (length (orders st) + 1)
        (Number StringToNumber (body_amount body)) (body_code body)
        [ Payout.mk (User.id U) 1
            (Number StringToNumber (body_amount body) * 0.10)%float;
          Payout.mk (User.id U) 2
            (Number StringToNumber (body_amount body) * 0.05)%float;
          Payout.mk (User.id U) 3
            (Number StringToNumber (body_amount body) * 0.02)%float ].
Proof.
  intros st body U Ha Hc Hcode Hown Hself H1 H2 H3.
  assert (Ht : truthy (User.referrerCode U) = true)
    by (rewrite Hself, <- Hcode; exact Hc).
  assert (Hf : findUserByCode (users st) (User.referrerCode U) = Some U)
    by (rewrite Hself, <- Hcode; exact Hown).
  exact (proj1 (post_order_three_levels st body U U U
                  Ha Hc Hown Ht Hf Ht Hf H1 H2 H3)).
Qed.

(** C4 (amended): [POST /order] responds 400 if and only if the request's
    amount or code is falsy: absent, null, false, 0, NaN or the empty
    string.  So a request with a non-empty code and a numeric amount
    passes validation exactly when the amount is not 0 (and not NaN). *)
Theorem order_400_iff_falsy :
  forall (st : state) (body : OrderBody),
    (exists error, snd (post_order StringToNumber st body) = Error 400 error)
    <-> (truthy (body_amount body) = false \/ truthy (body_code body) = false).
Proof.
  intros st body. split.
  - intros (error & Herr).
    destruct (post_order_cases st body)
      as [(Hfalsy & _) | [(_ & _ & _ & Heq) | (owner & Ha & Hc & Hf)]].
    + apply andb_false_iff. exact Hfalsy.
    + rewrite Heq in Herr. discriminate.
    + rewrite (post_order_created st body owner Ha Hc Hf) in Herr.
      discriminate.
  - intros Hfalsy. exists "amount & code required".
    destruct (post_order_cases st body)
      as [(_ & Heq) | [(Ha & Hc & _) | (owner & Ha & Hc & _)]].
    + rewrite Heq. reflexivity.
    + destruct Hfalsy; congruence.
    + destruct Hfalsy; congruence.
Qed.

(** The handler with an empty upline. *)
Lemma post_order_no_upline st body owner :
  truthy (body_amount body) = true ->
  truthy (body_code body) = true ->
  findUserByCode (users st) (body_code body) = Some owner ->
  buildUpline (users st) (User.referrerCode owner) 3 = [] ->
  snd (post_order StringToNumber st body) =
    OrderCreated (length (orders st) + 1)
      (Number StringToNumber (body_amount body)) (body_code body)
      (if (0 <? Number StringToNumber (body_amount body) * 0.10)%float
       then [Payout.mk (User.id owner) 1
               (Number StringToNumber (body_amount body) * 0.10)%float]
       else []).
Proof.
  intros Ha Hc Hown Hup.
  rewrite (post_order_created st body owner Ha Hc Hown), Hup.
  cbv zeta. cbn [Order.amount Order.id forEach_upline snd].
  destruct (0 <? Number StringToNumber (body_amount body) * 0.10)%float;
    reflexivity.
Qed.

(** C5 (amended): for every order with a present numeric amount and a
    code resolving to a user, whose level-1 commission amount × 0.10 is
    greater than 0 (so the amount is positive), the response is a 200
    whose first payout is the level-1 payout: its amount equals
    amount × 0.10 exactly and its userId is the id of the user owning the
    order's referral code; every other payout is of level 2 or more.  The
    same holds of the commission records appended. *)
Theorem level1_payout_to_owner :
  forall (st : state) (body : OrderBody) (a : float) (owner : User.t),
    body_amount body = Num a ->
    truthy (body_code body) = true ->
    findUserByCode (users st) (body_code body) = Some owner ->
    (0 <? a * 0.10)%float = true ->
    (0 <? a)%float = true
    /\ exists rest more,
        snd (post_order StringToNumber st body) =
          OrderCreated (length (orders st) + 1) a (body_code body)
            (Payout.mk (User.id owner) 1 (a * 0.10)%float :: rest)
        /\ Forall (fun p => 2 <= Payout.level p) rest
        /\ commissions (fst (post_order StringToNumber st body)) =
            commissions st ++
            Commission.mk (length (orders st) + 1) (User.id owner) 1
              0.10%float (a * 0.10)%float :: more
        /\ Forall (fun c => 2 <= Commission.level c) more.
Proof.
  intros st body a owner Hnum Hc Hown Hpos.
  assert (Ha : (0 <? a)%float = true)
    by (apply (positive_product a 0.10%float); [reflexivity | exact Hpos]).
  split; [exact Ha |].
  assert (Ht : truthy (body_amount body) = true)
    by (rewrite Hnum; apply positive_truthy; exact Ha).
  rewrite (post_order_created st body owner Ht Hc Hown).
  rewrite Hnum. cbv zeta. cbn [Number Order.amount Order.id]. rewrite Hpos.
  cbn [fst snd].
  match goal with
  | |- context [forEach_upline ?o ?u 0 ?c ?p] =>
      destruct (forEach_upline_acc o u 0 c p)
        as (cs & ps & Heq & Hcs & Hps & _);
      rewrite Heq
  end.
  exists ps, cs. cbn [fst snd commissions]. rewrite <- app_assoc.
  repeat split.
  - exact Hps.
  - eapply Forall_impl; [| exact Hcs]. cbn. intros c (_ & Hl & _). exact Hl.
Qed.

(** C7 (amended): for every successful order whose code owner has a
    referrerCode that resolves to no user in the directory, the upline
    walk ends at once with an empty upline, no error is raised, the
    response is a normal 200, and the payouts array holds nothing but the
    level-1 entry: exactly that entry when amount × 0.10 is greater than
    0, and no entry otherwise. *)
Theorem broken_chain_pays_level1_only :
  forall (st : state) (body : OrderBody) (owner : User.t),
    truthy (body_amount body) = true ->
    truthy (body_code body) = true ->
    findUserByCode (users st) (body_code body) = Some owner ->
    findUserByCode (users st) (User.referrerCode owner) = None ->
    buildUpline (users st) (User.referrerCode owner)
      (length COMMISSION_LEVELS) = []
    /\ snd (post_order StringToNumber st body) =
        OrderCreated (length (orders st) + 1)
          (Number StringToNumber (body_amount body)) (body_code body)
          (if (0 <? Number StringToNumber (body_amount body) * 0.10)%float
           then [Payout.mk (User.id owner) 1
                   (Number StringToNumber (body_amount body) * 0.10)%float]
           else []).
Proof.
  intros st body owner Ha Hc Hown Hbroken.
  assert (Hup : buildUpline (users st) (User.referrerCode owner) 3 = []).
  { unfold buildUpline. cbn [buildUpline_from]. rewrite Hbroken.
    destruct (truthy (User.referrerCode owner)); reflexivity. }
  split; [exact Hup |].
  apply post_order_no_upline; assumption.
Qed.

(** C8 (amended): for every successful order whose code owner has no
    referrer (referrerCode null), the payouts array has exactly 1 entry,
    at level 1, when amount × 0.10 is greater than 0, and is empty
    otherwise. *)
Theorem no_referrer_pays_level1_only :
  forall (st : state) (body : OrderBody) (owner : User.t),
    truthy (body_amount body) = true ->
    truthy (body_code body) = true ->
    findUserByCode (users st) (body_code body) = Some owner ->
    User.referrerCode owner = Null ->
    snd (post_order StringToNumber st body) =
      OrderCreated (length (orders st) + 1)
        (Number StringToNumber (body_amount body)) (body_code body)
        (if (0 <? Number StringToNumber (body_amount body) * 0.10)%float
         then [Payout.mk (User.id owner) 1
                 (Number StringToNumber (body_amount body) * 0.10)%float]
         else []).
Proof.
  intros st body owner Ha Hc Hown Hnull.
  apply post_order_no_upline; try assumption.
  rewrite Hnull. reflexivity.
Qed.

(** C9: [POST /order] is atomic on error.  For every request answered with
    an error, which is a 400 (missing field) or a 404 (unknown referral
    code), the orders list and the commissions list are exactly as they
    were before the request: nothing is appended. *)
Theorem order_error_appends_nothing :
  forall (st : state) (body : OrderBody) (status : nat) (error : string),
    snd (post_order StringToNumber st body) = Error status error ->
    (status = 400 \/ status = 404)
    /\ orders (fst (post_order StringToNumber st body)) = orders st
    /\ commissions (fst (post_order StringToNumber st body)) = commissions st.
Proof.
  intros st body status error Herr.
  destruct (post_order_cases st body)
    as [(_ & Heq) | [(_ & _ & _ & Heq) | (owner & Ha & Hc & Hf)]].
  - rewrite Heq in Herr |- *. injection Herr as <- _. auto.
  - rewrite Heq in Herr |- *. injection Herr as <- _. auto.
  - rewrite (post_order_created st body owner Ha Hc Hf) in Herr.
    discriminate.
Qed.

(** Whatever the shape of the referral graph, the payouts of a successful
    order are chosen, in order, among at most three candidates, one per
    level 1, 2, 3 of the schedule, whose amounts are the order amount
    × 0.10, × 0.05 and × 0.02: the payouts are the candidates of positive
    amount, and the commission records appended for the order carry the
    same amounts. *)
Lemma order_payout_candidates :
  forall (st : state) (body : OrderBody) (orderId : nat) (amount : float)
         (code : value) (payouts : list Payout.t),
    snd (post_order StringToNumber st body) =
      OrderCreated orderId amount code payouts ->
    exists (candidates : list Payout.t) (appended : list Commission.t),
      length candidates <= length COMMISSION_LEVELS
      /\ map Payout.level candidates = firstn (length candidates) [1; 2; 3]
      /\ map Payout.amount candidates =
          firstn (length candidates)
            (map (fun percent => (amount * percent)%float) COMMISSION_LEVELS)
      /\ payouts = filter (fun p => (0 <? Payout.amount p)%float) candidates
      /\ commissions (fst (post_order StringToNumber st body)) =
          commissions st ++ appended
      /\ map Commission.amount appended = map Payout.amount payouts.
Proof.
  intros st body orderId amount code payouts Hresp.
  destruct (post_order_cases st body)
    as [(_ & Heq) | [(_ & _ & _ & Heq) | (owner & Ha & Hc & Hf)]];
    try (rewrite Heq in Hresp; discriminate).
  rewrite (post_order_created st body owner Ha Hc Hf) in Hresp |- *.
  remember (buildUpline (users st) (User.referrerCode owner) 3) as upline
    eqn:Hupline in Hresp |- *.
  clear Hupline.
  cbv zeta in Hresp |- *.
  cbn [fst snd commissions Order.amount Order.id] in Hresp |- *.
  injection Hresp as _ Hamount _ Hpayouts. subst amount payouts.
  set (a := Number StringToNumber (body_amount body)).
  destruct (0 <? a * 0.10)%float eqn:Hl1; cbn [fst snd].
  all: match goal with
       | |- context [forEach_upline ?o ?u 0 ?c ?p] =>
           destruct (forEach_upline_acc o u 0 c p)
             as (cs & ps & Heq & _ & _ & Hamt);
           pose proof (forEach_upline_payouts o u c p) as Hclosed;
           rewrite Heq in Hclosed |- *;
           cbn [fst snd Order.amount] in Hclosed |- *;
           fold a in Hclosed
       end.
  all: exists (Payout.mk (User.id owner) 1 (a * 0.10)%float ::
               match upline with
               | [] => []
               | u1 :: rest =>
                   Payout.mk (User.id u1) 2 (a * 0.05)%float ::
                   match rest with
                   | [] => []
                   | u2 :: _ => [Payout.mk (User.id u2) 3 (a * 0.02)%float]
                   end
               end).
  1: exists (Commission.mk (length (orders st) + 1) (User.id owner) 1
               0.10%float (a * 0.10)%float :: cs).
  2: exists cs.
  all: cbn [filter Payout.amount]; rewrite Hl1.
  all: refine (conj _ (conj _ (conj _ (conj _ (conj _ _)))));
    [ destruct upline as [| u1 [| u2 rest]]; simpl; lia
    | destruct upline as [| u1 [| u2 rest]]; reflexivity
    | destruct upline as [| u1 [| u2 rest]]; reflexivity
    | exact Hclosed
    | rewrite <- ?app_assoc; reflexivity
    | rewrite ?map_app; cbn [map Commission.amount Payout.amount app];
      rewrite Hamt; reflexivity ].
Qed.

(** ** The commission log *)

(** A record of the log is sound when its amount is greater than 0 and its
    level is one of the schedule. *)
Lemma post_order_keeps_log (Q : Commission.t -> Prop) st body :
  (forall c, (0 <? Commission.amount c)%float = true ->
             1 <= Commission.level c ->
             Commission.level c <= length COMMISSION_LEVELS -> Q c) ->
  Forall Q (commissions st) ->
  Forall Q (commissions (fst (post_order StringToNumber st body))).
Proof.
  intros HQ Hlog.
  destruct (post_order_cases st body)
    as [(_ & Heq) | [(_ & _ & _ & Heq) | (owner & Ha & Hc & Hf)]];
    try (rewrite Heq; exact Hlog).
  rewrite (post_order_created st body owner Ha Hc Hf).
  cbv zeta. cbn [fst commissions].
  match goal with
  | |- context [forEach_upline ?o ?u 0 ?c ?p] =>
      destruct (forEach_upline_acc o u 0 c p) as (cs & ps & Heq & Hcs & _);
      rewrite Heq
  end.
  cbn [fst]. apply Forall_app. split.
  - destruct (0 <? _)%float eqn:Hpos; cbn [fst]; [| exact Hlog].
    apply Forall_app. split; [exact Hlog |].
    constructor; [| constructor].
    apply HQ; cbn; [exact Hpos | lia | lia].
  - eapply Forall_impl; [| exact Hcs]. cbn. intros c (Hpos & Hlo & Hhi).
    apply HQ; [exact Hpos | lia | exact Hhi].
Qed.

Lemma handle_keeps_log (Q : Commission.t -> Prop) st r :
  (forall c, (0 <? Commission.amount c)%float = true ->
             1 <= Commission.level c ->
             Commission.level c <= length COMMISSION_LEVELS -> Q c) ->
  Forall Q (commissions st) ->
  Forall Q (commissions (fst (handle StringToNumber st r))).
Proof.
  intros HQ Hlog. destruct r as [body genCode | code | code | body | | | |];
    cbn [handle fst]; try exact Hlog.
  - unfold post_signup.
    destruct (_ || _ || _); [exact Hlog |].
    destruct (existsb _ _); [exact Hlog |].
    destruct (body_password body); exact Hlog.
  - unfold get_click. destruct (findUserByCode _ _); exact Hlog.
  - unfold get_stats. destruct (findUserByCode _ _); exact Hlog.
  - apply post_order_keeps_log; assumption.
Qed.

(** C6: zero-amount commissions are never recorded.  In every state
    reached from the empty server by any sequence of requests, every
    record of the commissions list has an amount greater than 0; and its
    level is one of the schedule (1 to 3), so an ancestor whose schedule
    index is beyond the defined levels never causes an append. *)
Theorem commissions_always_positive :
  forall reqs : list request,
    Forall (fun c => (0 <? Commission.amount c)%float = true
                     /\ 1 <= Commission.level c
                     /\ Commission.level c <= length COMMISSION_LEVELS)
      (commissions (run StringToNumber reqs initial_state)).
Proof.
  intros reqs. unfold run.
  assert (Hinit : Forall (fun c => (0 <? Commission.amount c)%float = true
                                   /\ 1 <= Commission.level c
                                   /\ Commission.level c <= length COMMISSION_LEVELS)
                    (commissions initial_state)) by constructor.
  revert Hinit. generalize initial_state.
  induction reqs as [| r reqs IH]; intros st Hlog; [exact Hlog |].
  cbn [fold_left]. apply IH. apply handle_keeps_log; [| exact Hlog].
  intros c H1 H2 H3. auto.
Qed.

End OrderProperties.

(** ** The total paid for an order

    Each commission is a binary64 product, rounded to the nearest
    representable number.  The rounding is measured on the exact rational
    values: a product of two positive numbers is at most the exact product
    times 1 + 2^-53, or within 2^-1075 of it in the subnormal range. *)

Section RoundingError.

Local Open Scope Z_scope.

Lemma shr_1_round_bit (r : shr_record) :
  0 <= shr_m r -> shr_r (shr_1 r) = true -> shr_m r mod 2 = 1.
Proof.
  destruct r as [m rb s]. cbn [shr_m]. intros Hm. unfold shr_1.
  destruct m as [| p | p]; [discriminate | | lia].
  destruct p as [p | p |]; cbn [shr_r]; intros H; try discriminate.
  - change (Z.pos p~1) with (2 * Z.pos p + 1).
    replace (2 * Z.pos p + 1) with (1 + Z.pos p * 2) by lia.
    rewrite Z.mod_add by lia.
    reflexivity.
  - reflexivity.
Qed.

Lemma iter_shr_1_round_bit (p : positive) (r : shr_record) :
  0 <= shr_m r ->
  shr_r (SpecFloat.iter_pos shr_1 p r) = true ->
  2 ^ Z.pos p <= 2 * (shr_m r mod 2 ^ Z.pos p).
Proof.
  revert r.
  induction p as [p IH | p IH |]; intros r Hr Hbit; cbn [SpecFloat.iter_pos] in Hbit.
  - assert (H0 : 0 <= shr_m (shr_1 r)).
    { rewrite shr_1_div2 by exact Hr. apply Z.div_pos; lia. }
    assert (H1 : 0 <= shr_m (SpecFloat.iter_pos shr_1 p (shr_1 r))).
    { rewrite iter_shr_1_div by exact H0. apply Z.div_pos; [exact H0 | lia]. }
    specialize (IH _ H1 Hbit).
    rewrite iter_shr_1_div in IH by exact H0.
    rewrite shr_1_div2 in IH by exact Hr.
    rewrite Z.div_div in IH by lia.
    assert (HP : 0 < 2 ^ Z.pos p) by (apply Z.pow_pos_nonneg; lia).
    change (Z.pos p~1) with (2 * Z.pos p + 1).
    replace (2 ^ (2 * Z.pos p + 1)) with ((2 * 2 ^ Z.pos p) * 2 ^ Z.pos p).
    2: { rewrite Z.pow_add_r, Z.pow_1_r by lia.
         replace (2 * Z.pos p) with (Z.pos p + Z.pos p) by lia.
         rewrite Z.pow_add_r by lia. ring. }
    rewrite Z.rem_mul_r by lia.
    set (P := 2 ^ Z.pos p) in *.
    pose proof (Z.mod_pos_bound (shr_m r) (2 * P) ltac:(lia)) as Hb.
    set (Y := (shr_m r / (2 * P)) mod P) in *.
    set (X := shr_m r mod (2 * P)) in *. nia.
  - assert (H1 : 0 <= shr_m (SpecFloat.iter_pos shr_1 p r)).
    { rewrite iter_shr_1_div by exact Hr. apply Z.div_pos; [exact Hr | lia]. }
    specialize (IH _ H1 Hbit).
    rewrite iter_shr_1_div in IH by exact Hr.
    assert (HP : 0 < 2 ^ Z.pos p) by (apply Z.pow_pos_nonneg; lia).
    change (Z.pos p~0) with (2 * Z.pos p).
    replace (2 ^ (2 * Z.pos p)) with (2 ^ Z.pos p * 2 ^ Z.pos p).
    2: { replace (2 * Z.pos p) with (Z.pos p + Z.pos p) by lia.
         rewrite Z.pow_add_r by lia. ring. }
    rewrite Z.rem_mul_r by lia.
    set (P := 2 ^ Z.pos p) in *.
    pose proof (Z.mod_pos_bound (shr_m r) P ltac:(lia)) as Hb.
    set (Y := (shr_m r / P) mod P) in *.
    set (X := shr_m r mod P) in *. nia.
  - apply shr_1_round_bit in Hbit; [| exact Hr].
    change (2 ^ 1) with 2. lia.
Qed.

Lemma digits2_pos_gt (p : positive) : Z.pos p < 2 ^ Z.pos (digits2_pos p).
Proof.
  induction p as [p IH | p IH |]; cbn [digits2_pos].
  - rewrite Pos2Z.inj_succ, Z.pow_succ_r by lia.
    change (Z.pos p~1) with (2 * Z.pos p + 1). lia.
  - rewrite Pos2Z.inj_succ, Z.pow_succ_r by lia.
    change (Z.pos p~0) with (2 * Z.pos p). lia.
  - reflexivity.
Qed.

Lemma digits2_pos_below (p : positive) (k : Z) :
  Z.pos p < 2 ^ k -> Z.pos (digits2_pos p) <= k.
Proof.
  intros Hp. pose proof (digits2_pos_le p) as Hd.
  destruct (Z.le_gt_cases (Z.pos (digits2_pos p)) k) as [H | H]; [exact H |].
  exfalso.
  assert (2 ^ k <= 2 ^ (Z.pos (digits2_pos p) - 1))
    by (apply Z.pow_le_mono_r; lia).
  lia.
Qed.

Lemma round_after_shift (M p : positive) :
  let mrs := SpecFloat.iter_pos shr_1 p (Build_shr_record (Z.pos M) false false) in
  let m2 := round_nearest_even (shr_m mrs) (loc_of_shr_record mrs) in
  Z.pos M / 2 ^ Z.pos p <= m2 <= Z.pos M / 2 ^ Z.pos p + 1
  /\ 2 * m2 * 2 ^ Z.pos p <= 2 * Z.pos M + 2 ^ Z.pos p.
Proof.
  intros mrs m2. subst m2.
  assert (Hm : shr_m mrs = Z.pos M / 2 ^ Z.pos p)
    by (apply (iter_shr_1_div p (Build_shr_record (Z.pos M) false false)); cbn; lia).
  assert (Hbit : shr_r mrs = true -> 2 ^ Z.pos p <= 2 * (Z.pos M mod 2 ^ Z.pos p))
    by (apply (iter_shr_1_round_bit p (Build_shr_record (Z.pos M) false false)); cbn; lia).
  assert (HP : 0 < 2 ^ Z.pos p) by (apply Z.pow_pos_nonneg; lia).
  pose proof (Z.div_mod (Z.pos M) (2 ^ Z.pos p) ltac:(lia)) as Hdm.
  pose proof (Z.mod_pos_bound (Z.pos M) (2 ^ Z.pos p) HP) as Hb.
  destruct mrs as [m1 r s]. cbn [shr_m shr_r] in Hm, Hbit. subst m1.
  set (P := 2 ^ Z.pos p) in *. set (q := Z.pos M / P) in *.
  set (rem := Z.pos M mod P) in *.
  destruct r, s; cbn [loc_of_shr_record round_nearest_even shr_m];
    try destruct (Z.even q); try specialize (Hbit eq_refl); split; nia.
Qed.

Lemma first_shift (M : positive) (E : Z) :
  Z.pos M < 2 ^ 106 -> E <= 915 ->
  exists mrs1 e1 err,
    shr_fexp prec emax (Z.pos M) E loc_Exact = (mrs1, e1)
    /\ 0 <= round_nearest_even (shr_m mrs1) (loc_of_shr_record mrs1) <= 2 ^ 53
    /\ E <= e1 <= 968
    /\ 0 <= err
    /\ 2 * round_nearest_even (shr_m mrs1) (loc_of_shr_record mrs1)
         * 2 ^ (e1 - E) <= 2 * Z.pos M + err
    /\ (err * 2 ^ 52 <= Z.pos M \/ (E < -1074 /\ err = 2 ^ (-1074 - E))).
Proof.
  intros HM HE. unfold shr_fexp, shr, fexp, emin, prec, emax, Zdigits2.
  pose proof (digits2_pos_le M) as Hlo. pose proof (digits2_pos_gt M) as Hhi.
  pose proof (digits2_pos_below M 106 HM) as Hd.
  set (d := Z.pos (digits2_pos M)) in *.
  destruct (Z.max (d + E - 53) (3 - 1024 - 53) - E) as [| p | p] eqn:Hn.
  - exists (shr_record_of_loc (Z.pos M) loc_Exact), E, 0.
    cbn [shr_record_of_loc loc_of_shr_record round_nearest_even shr_m].
    assert (Hd53 : d <= 53) by lia.
    assert (2 ^ d <= 2 ^ 53) by (apply Z.pow_le_mono_r; lia).
    rewrite Z.sub_diag. change (2 ^ 0) with 1.
    repeat split; try lia.
  - pose proof (round_after_shift M p) as (Hm2 & Hround). cbv zeta in Hm2, Hround.
    eexists _, _, (2 ^ Z.pos p).
    cbn [shr_record_of_loc]. split; [reflexivity |].
    assert (HP : 0 < 2 ^ Z.pos p) by (apply Z.pow_pos_nonneg; lia).
    assert (Hq : 0 <= Z.pos M / 2 ^ Z.pos p) by (apply Z.div_pos; lia).
    assert (Hq53 : Z.pos M / 2 ^ Z.pos p < 2 ^ 53).
    { apply Z.div_lt_upper_bound; [exact HP |].
      rewrite <- Z.pow_add_r by lia.
      eapply Z.lt_le_trans; [exact Hhi |]. apply Z.pow_le_mono_r; lia. }
    replace (E + Z.pos p - E) with (Z.pos p) by lia.
    repeat split; try lia.
    destruct (Z.max_spec (d + E - 53) (3 - 1024 - 53)) as [(Hlt & Hmax) | (Hge & Hmax)].
    + right. split; [lia |]. f_equal. lia.
    + left. rewrite <- Z.pow_add_r by lia.
      replace (Z.pos p + 52) with (d - 1) by lia. exact Hlo.
  - exists (shr_record_of_loc (Z.pos M) loc_Exact), E, 0.
    cbn [shr_record_of_loc loc_of_shr_record round_nearest_even shr_m].
    assert (Hd53 : d <= 53) by lia.
    assert (2 ^ d <= 2 ^ 53) by (apply Z.pow_le_mono_r; lia).
    rewrite Z.sub_diag. change (2 ^ 0) with 1.
    repeat split; try lia.
Qed.

Lemma second_shift (m2 e1 : Z) :
  0 <= m2 <= 2 ^ 53 -> e1 <= 968 ->
  exists mrs3 e3,
    shr_fexp prec emax m2 e1 loc_Exact = (mrs3, e3)
    /\ 0 <= shr_m mrs3
    /\ e1 <= e3 <= 971
    /\ shr_m mrs3 * 2 ^ (e3 - e1) <= m2.
Proof.
  intros Hm2 He1. unfold shr_fexp, shr, fexp, emin, prec, emax.
  assert (Hd : Zdigits2 m2 <= 54).
  { destruct m2 as [| q | q]; cbn [Zdigits2]; try lia.
    apply digits2_pos_below.
    assert (2 ^ 53 < 2 ^ 54) by (apply Z.pow_lt_mono_r; lia). lia. }
  assert (Hd0 : 0 <= Zdigits2 m2) by (destruct m2; cbn [Zdigits2]; lia).
  destruct (Z.max (Zdigits2 m2 + e1 - 53) (3 - 1024 - 53) - e1) as [| q | q] eqn:Hn.
  - exists (shr_record_of_loc m2 loc_Exact), e1.
    cbn [shr_record_of_loc shr_m]. rewrite Z.sub_diag. change (2 ^ 0) with 1.
    repeat split; lia.
  - eexists _, _. split; [reflexivity |]. cbn [shr_record_of_loc].
    rewrite iter_shr_1_div by (cbn; lia). cbn [shr_m].
    assert (HP : 0 < 2 ^ Z.pos q) by (apply Z.pow_pos_nonneg; lia).
    replace (e1 + Z.pos q - e1) with (Z.pos q) by lia.
    pose proof (Z.mul_div_le m2 (2 ^ Z.pos q) HP).
    repeat split; try lia.
    apply Z.div_pos; lia.
  - exists (shr_record_of_loc m2 loc_Exact), e1.
    cbn [shr_record_of_loc shr_m]. rewrite Z.sub_diag. change (2 ^ 0) with 1.
    repeat split; lia.
Qed.

Lemma binary_round_aux_bound (M : positive) (E : Z) :
  Z.pos M < 2 ^ 106 -> E <= 915 ->
  binary_round_aux prec emax false (Z.pos M) E loc_Exact = S754_zero false
  \/ exists m3 e3 err,
       binary_round_aux prec emax false (Z.pos M) E loc_Exact
       = S754_finite false m3 e3
       /\ E <= e3 /\ 0 <= err
       /\ 2 * Z.pos m3 * 2 ^ (e3 - E) <= 2 * Z.pos M + err
       /\ (err * 2 ^ 52 <= Z.pos M \/ (E < -1074 /\ err = 2 ^ (-1074 - E))).
Proof.
  intros HM HE. unfold binary_round_aux.
  destruct (first_shift M E HM HE)
    as (mrs1 & e1 & err & Heq1 & Hm2 & He1 & Herr & Hbound & Hcond).
  rewrite Heq1.
  destruct (second_shift _ e1 Hm2 ltac:(lia)) as (mrs3 & e3 & Heq3 & Hm3 & He3 & Hle).
  rewrite Heq3.
  destruct (shr_m mrs3) as [| m3 | m3] eqn:Hm; [left; reflexivity | | lia].
  right. exists m3, e3, err.
  assert (Hif : (e3 <=? emax - prec) = true) by (apply Z.leb_le; unfold emax, prec; lia).
  rewrite Hif. split; [reflexivity |]. split; [lia |]. split; [exact Herr |].
  split; [| exact Hcond].
  replace (e3 - E) with ((e3 - e1) + (e1 - E)) by lia.
  rewrite Z.pow_add_r by lia.
  assert (0 < 2 ^ (e1 - E)) by (apply Z.pow_pos_nonneg; lia).
  assert (0 < 2 ^ (e3 - e1)) by (apply Z.pow_pos_nonneg; lia).
  set (A := 2 ^ (e1 - E)) in *. set (B := 2 ^ (e3 - e1)) in *.
  set (m2 := round_nearest_even _ _) in *. nia.
Qed.

End RoundingError.

Lemma two_power_positive (k : Z) : (0 < 2 ^ k)%Q.
Proof. apply Qpower_0_lt. reflexivity. Qed.

Lemma two_power_plus (j k : Z) : (2 ^ (j + k) == 2 ^ j * 2 ^ k)%Q.
Proof. apply Qpower_plus. discriminate. Qed.

Lemma inject_two_power (k : Z) : (0 <= k)%Z -> (inject_Z (2 ^ k) == 2 ^ k)%Q.
Proof. intros Hk. rewrite Zpower_Qpower by exact Hk. reflexivity. Qed.

Lemma valid_mantissa_below (m : positive) (e : Z) :
  valid_binary (S754_finite false m e) = true ->
  (Z.pos m < 2 ^ 53 /\ e <= 971)%Z.
Proof.
  unfold valid_binary, bounded, canonical_mantissa, fexp, emin, prec, emax.
  intros H. apply andb_true_iff in H as (Hc & He).
  apply Z.leb_le in He. apply Z.eqb_eq in Hc.
  change (Z.max (Z.pos (digits2_pos m) + e - 53) (3 - 1024 - 53) = e)%Z in Hc.
  pose proof (digits2_pos_gt m) as Hd.
  assert (Z.pos (digits2_pos m) <= 53)%Z by lia.
  assert (2 ^ Z.pos (digits2_pos m) <= 2 ^ 53)%Z by (apply Z.pow_le_mono_r; lia).
  lia.
Qed.

Lemma product_rounding_bound (a c : float) (ma mc : positive) (ea ec : Z) :
  Prim2SF a = S754_finite false ma ea ->
  Prim2SF c = S754_finite false mc ec ->
  (ec <= -56)%Z ->
  (0 <= exact_value (a * c)
   /\ exact_value (a * c)
      <= exact_value a * exact_value c * (1 + 2 ^ (-53)) + 2 ^ (-1075))%Q.
Proof.
  intros Ha Hc Hec.
  pose proof (Prim2SF_valid a) as Hva. rewrite Ha in Hva.
  pose proof (Prim2SF_valid c) as Hvc. rewrite Hc in Hvc.
  apply valid_mantissa_below in Hva as (Hma & Hea).
  apply valid_mantissa_below in Hvc as (Hmc & _).
  unfold exact_value at 1 2. rewrite FloatAxioms.mul_spec, Ha, Hc.
  unfold exact_value. rewrite Ha, Hc.
  unfold SF64mul, SFmul. cbn [xorb].
  change (Z.pos (ma * mc)) with (Z.pos ma * Z.pos mc)%Z.
  set (E := (ea + ec)%Z).
  assert (HE : (E <= 915)%Z) by (subst E; lia).
  assert (HM : (Z.pos ma * Z.pos mc < 2 ^ 106)%Z).
  { change (2 ^ 106)%Z with (2 ^ 53 * 2 ^ 53)%Z. nia. }
  change (Z.pos ma * Z.pos mc)%Z with (Z.pos (ma * mc)) in HM |- *.
  pose proof (two_power_positive E) as HT.
  pose proof (two_power_positive (-1075)) as Htiny.
  assert (Hexact : ((Z.pos ma # 1) * 2 ^ ea * ((Z.pos mc # 1) * 2 ^ ec)
                    == inject_Z (Z.pos (ma * mc)) * 2 ^ E)%Q).
  { subst E. rewrite two_power_plus.
    change (Z.pos (ma * mc)) with (Z.pos ma * Z.pos mc)%Z.
    rewrite inject_Z_mult. unfold inject_Z. ring. }
  rewrite Hexact.
  assert (HMq : (0 < inject_Z (Z.pos (ma * mc)))%Q).
  { change 0%Q with (inject_Z 0). rewrite <- Zlt_Qlt. lia. }
  assert (Heps : (2 ^ (-53) == 1 # 9007199254740992)%Q) by reflexivity.
  destruct (binary_round_aux_bound (ma * mc) E HM HE)
    as [Hz | (m3 & e3 & err & Hr & He3 & Herr & Hbound & Hcond)].
  - rewrite Hz. rewrite Heps. split; [apply Qle_refl |]. nra.
  - rewrite Hr.
    assert (Hm3 : (0 < inject_Z (Z.pos m3))%Q).
    { change 0%Q with (inject_Z 0). rewrite <- Zlt_Qlt. lia. }
    pose proof (two_power_positive e3) as He3q.
    change (Z.pos m3 # 1)%Q with (inject_Z (Z.pos m3)).
    split; [nra |].
    replace e3 with ((e3 - E) + E)%Z by lia.
    rewrite two_power_plus.
    pose proof (two_power_positive (e3 - E)) as HP.
    rewrite Zle_Qle in Hbound.
    rewrite inject_Z_plus, !inject_Z_mult, inject_two_power in Hbound by lia.
    change (inject_Z 2) with 2%Q in Hbound.
    rewrite Zle_Qle in Herr. change (inject_Z 0) with 0%Q in Herr.
    rewrite Heps.
    set (x := inject_Z (Z.pos m3)) in *.
    set (Mq := inject_Z (Z.pos (ma * mc))) in *.
    set (P := (2 ^ (e3 - E))%Q) in *.
    set (T := (2 ^ E)%Q) in *.
    set (tiny := (2 ^ (-1075))%Q) in *.
    set (errq := inject_Z err) in *.
    destruct Hcond as [Hrel | (Hsub & Herrv)].
    + rewrite Zle_Qle, inject_Z_mult in Hrel.
      change (inject_Z (2 ^ 52)) with (4503599627370496 # 1)%Q in Hrel.
      fold errq Mq in Hrel.
      assert (H1 : (0 <= (2 * Mq + errq - 2 * x * P) * T)%Q) by nra.
      assert (H2 : (0 <= (Mq - errq * (4503599627370496 # 1)) * T)%Q) by nra.
      nra.
    + assert (Hprod : (errq * T == 2 * tiny)%Q).
      { subst errq T tiny. rewrite Herrv, inject_two_power by lia.
        rewrite <- two_power_plus.
        replace (-1074 - E + E)%Z with (1 + -1075)%Z by lia.
        rewrite two_power_plus. reflexivity. }
      assert (H1 : (0 <= (2 * Mq + errq - 2 * x * P) * T)%Q) by nra.
      nra.
Qed.

Lemma exact_value_nonnegative (a : float) :
  (0 <=? a)%float = true -> (0 <= exact_value a)%Q.
Proof.
  rewrite FloatAxioms.leb_spec. change (Prim2SF 0) with (S754_zero false).
  unfold exact_value.
  destruct (Prim2SF a) as [s | s | | s m e]; try (intros _; apply Qle_refl).
  destruct s; [discriminate |]. intros _.
  pose proof (two_power_positive e) as He.
  assert (Hm : (0 < inject_Z (Z.pos m))%Q).
  { change 0%Q with (inject_Z 0). rewrite <- Zlt_Qlt. lia. }
  change (Z.pos m # 1)%Q with (inject_Z (Z.pos m)). nra.
Qed.

(** The rounding of a commission of a finite nonnegative amount. *)
Lemma schedule_product_bound (a c : float) :
  (0 <=? a)%float = true -> (a <? infinity)%float = true ->
  In c COMMISSION_LEVELS ->
  (0 <= exact_value (a * c)
   /\ exact_value (a * c)
      <= exact_value a * exact_value c * (1 + 2 ^ (-53)) + 2 ^ (-1075))%Q.
Proof.
  intros Hpos Hfin Hc.
  pose proof (exact_value_nonnegative a Hpos) as HA.
  rewrite FloatAxioms.leb_spec in Hpos. rewrite FloatAxioms.ltb_spec in Hfin.
  change (Prim2SF 0) with (S754_zero false) in Hpos.
  change (Prim2SF infinity) with (S754_infinity false) in Hfin.
  destruct (Prim2SF a) as [s | s | | s m e] eqn:Ha; try discriminate.
  - assert (Hz : exact_value (a * c) = 0%Q).
    { unfold exact_value. rewrite FloatAxioms.mul_spec, Ha.
      destruct Hc as [<- | [<- | [<- | []]]]; reflexivity. }
    assert (Ha0 : exact_value a = 0%Q)
      by (unfold exact_value; rewrite Ha; reflexivity).
    rewrite Hz, Ha0. pose proof (two_power_positive (-1075)) as Htiny.
    split; [apply Qle_refl | nra].
  - destruct s; discriminate.
  - destruct s; [discriminate |].
    destruct Hc as [<- | [<- | [<- | []]]];
      eapply product_rounding_bound;
      solve [exact Ha | vm_compute; reflexivity | vm_compute; discriminate].
Qed.

(** A nonnegative amount that is not finite is [Infinity]. *)
Lemma nonnegative_not_finite (a : float) :
  (0 <=? a)%float = true -> (a <? infinity)%float = false -> a = infinity.
Proof.
  rewrite FloatAxioms.leb_spec, FloatAxioms.ltb_spec.
  change (Prim2SF 0) with (S754_zero false).
  change (Prim2SF infinity) with (S754_infinity false).
  destruct (Prim2SF a) as [s | s | | s m e] eqn:Ha; try discriminate.
  destruct s; try discriminate. intros _ _.
  apply Prim2SF_inj. rewrite Ha. reflexivity.
Qed.

Lemma map_filter_comm {A B : Type} (f : A -> B) (g : B -> bool) (l : list A) :
  map f (filter (fun x => g (f x)) l) = filter g (map f l).
Proof.
  induction l as [| x l IH]; [reflexivity |].
  cbn [filter map]. destruct (g (f x)); cbn [map]; rewrite IH; reflexivity.
Qed.

Section OrderTotals.

Variable StringToNumber : string -> float.

(** C10 (amended): for every successful order with a nonnegative amount,
    whatever the shape of the referral graph, the commission records
    appended for the order carry the amounts of the payouts returned, and
    when the amount is finite the exact sum of these amounts is at most
    17/100 of the order amount, times 1 + 2^-52, plus 2^-1073 (the
    roundings of the three binary64 products; 2^-52 is [Number.EPSILON]
    and 2^-1073 twice [Number.MIN_VALUE]).  The only other nonnegative
    amount of a successful order is [Infinity], and then every amount
    recorded is [Infinity]. *)
Theorem order_payouts_within_schedule :
  forall (st : state) (body : OrderBody) (orderId : nat) (amount : float)
         (code : value) (payouts : list Payout.t),
    snd (post_order StringToNumber st body) =
      OrderCreated orderId amount code payouts ->
    (0 <=? amount)%float = true ->
    exists appended : list Commission.t,
      commissions (fst (post_order StringToNumber st body)) =
        commissions st ++ appended
      /\ map Commission.amount appended = map Payout.amount payouts
      /\ (((amount <? infinity)%float = true
           /\ (fold_right Qplus 0 (map exact_value (map Commission.amount appended))
               <= (17 # 100) * exact_value amount * (1 + 2 ^ (-52))
                  + 2 ^ (-1073))%Q)
          \/ (amount = infinity
              /\ Forall (fun x => x = infinity)
                   (map Commission.amount appended))).
Proof.
  intros st body orderId amount code payouts Hresp Hpos.
  destruct (order_payout_candidates StringToNumber st body orderId amount code
              payouts Hresp)
    as (candidates & appended & Hlen & _ & Hamt & Hfilter & Hcomm & Hrec).
  exists appended. split; [exact Hcomm |]. split; [exact Hrec |].
  assert (Hsub : map Payout.amount payouts =
                 filter (fun x => (0 <? x)%float) (map Payout.amount candidates)).
  { rewrite Hfilter.
    apply (map_filter_comm Payout.amount (fun x => (0 <? x)%float)). }
  rewrite Hrec, Hsub, Hamt. clear Hrec Hsub Hamt Hfilter Hcomm Hresp.
  change (length COMMISSION_LEVELS) with 3 in Hlen.
  unfold COMMISSION_LEVELS. cbn [map].
  destruct (amount <? infinity)%float eqn:Hfin.
  - left. split; [reflexivity |].
    pose proof (exact_value_nonnegative amount Hpos) as HA.
    destruct (schedule_product_bound amount 0.10 Hpos Hfin) as (H1 & B1);
      [unfold COMMISSION_LEVELS; simpl; auto |].
    destruct (schedule_product_bound amount 0.05 Hpos Hfin) as (H2 & B2);
      [unfold COMMISSION_LEVELS; simpl; auto |].
    destruct (schedule_product_bound amount 0.02 Hpos Hfin) as (H3 & B3);
      [unfold COMMISSION_LEVELS; simpl; auto |].
    assert (E10 : (exact_value 0.10 == 7205759403792794 # 72057594037927936)%Q)
      by (vm_compute; reflexivity).
    assert (E05 : (exact_value 0.05 == 7205759403792794 # 144115188075855872)%Q)
      by (vm_compute; reflexivity).
    assert (E02 : (exact_value 0.02 == 5764607523034235 # 288230376151711744)%Q)
      by (vm_compute; reflexivity).
    assert (Heps53 : (2 ^ (-53) == 1 # 9007199254740992)%Q) by reflexivity.
    assert (Heps52 : (2 ^ (-52) == 1 # 4503599627370496)%Q) by reflexivity.
    assert (Htwo : (2 ^ (-1073) == 4 * 2 ^ (-1075))%Q).
    { change (-1073)%Z with (2 + -1075)%Z. rewrite two_power_plus.
      reflexivity. }
    pose proof (two_power_positive (-1075)) as Htiny.
    rewrite E10, Heps53 in B1. rewrite E05, Heps53 in B2.
    rewrite E02, Heps53 in B3. rewrite Heps52, Htwo.
    set (A := exact_value amount) in *.
    set (p1 := exact_value (amount * 0.10)) in *.
    set (p2 := exact_value (amount * 0.05)) in *.
    set (p3 := exact_value (amount * 0.02)) in *.
    set (tiny := (2 ^ (-1075))%Q) in *.
    destruct (length candidates) as [| [| [| [| n]]]];
      [ | | | | simpl in Hlen; lia ];
      cbn [firstn filter];
      repeat match goal with
        | |- context [if ?b then _ else _] => destruct b
        end;
      cbn [map fold_right]; fold p1 p2 p3; lra.
  - right. pose proof (nonnegative_not_finite amount Hpos Hfin) as Hinf.
    split; [exact Hinf |]. rewrite Hinf.
    destruct (length candidates) as [| [| [| [| n]]]];
      [ | | | | simpl in Hlen; lia ];
      vm_compute; repeat constructor.
Qed.

End OrderTotals.

(** ** The scenarios *)

(** C2 (as stated) fails: C's code has the chain C, B, A behind it, and an
    order of amount -100 attributed to it is answered 200 with no payout
    at all. *)
Lemma order_negative_amount_pays_nobody :
  exists owner parent grandparent : User.t,
    findUserByCode (users abc_state) (Str "CCC") = Some owner
    /\ findUserByCode (users abc_state) (User.referrerCode owner) = Some parent
    /\ findUserByCode (users abc_state) (User.referrerCode parent)
       = Some grandparent
    /\ snd (post_order unparsed abc_state (order_of (-100) "CCC")) =
       OrderCreated 1 (-100)%float (Str "CCC") [].
Proof. do 3 eexists. repeat split; reflexivity. Qed.

(** The scenario of C2: an order of amount 100 attributed to ["CCC"] pays
    C 10, B 5 and A 2. *)
Lemma order_three_level_payouts_scenario :
  snd (post_order unparsed abc_state (order_of 100 "CCC")) =
    OrderCreated 1 100%float (Str "CCC")
      [ Payout.mk 3 1 10%float; Payout.mk 2 2 5%float; Payout.mk 1 3 2%float ]
  /\ commissions (fst (post_order unparsed abc_state (order_of 100 "CCC"))) =
     [ Commission.mk 1 3 1 0.10%float 10%float;
       Commission.mk 1 2 2 0.05%float 5%float;
       Commission.mk 1 1 3 0.02%float 2%float ].
Proof.
  exact (order_three_level_payouts unparsed abc_state (order_of 100 "CCC")
           _ _ _ eq_refl eq_refl eq_refl eq_refl eq_refl eq_refl eq_refl
           eq_refl eq_refl eq_refl).
Defined.

(** C3 (as stated) fails: U referred themselves, the order amount
    [MIN_VALUE] is positive, and U is paid nothing: each of the three
    products rounds to 0. *)
Lemma self_referral_tiny_amount_unpaid :
  exists U : User.t,
    findUserByCode (users self_state) (Str "UUU") = Some U
    /\ User.referrerCode U = Str (User.code U)
    /\ (0 <? MIN_VALUE)%float = true
    /\ map (fun percent => (MIN_VALUE * percent)%float) COMMISSION_LEVELS
       = [0; 0; 0]%float
    /\ snd (post_order unparsed self_state (order_of MIN_VALUE "UUU")) =
       OrderCreated 1 MIN_VALUE (Str "UUU") [].
Proof. eexists. repeat split; reflexivity. Qed.

(** An order of amount 100 attributed to the self-referring U pays U three
    times. *)
Lemma self_referral_paid_three_times :
  snd (post_order unparsed self_state (order_of 100 "UUU")) =
    OrderCreated 1 100%float (Str "UUU")
      [ Payout.mk 1 1 10%float; Payout.mk 1 2 5%float; Payout.mk 1 3 2%float ].
Proof.
  exact (self_referral_paid_at_every_level unparsed self_state
           (order_of 100 "UUU")
           (User.mk 1 (Str "U") (Str "u@example.org") "UUU" (Str "UUU"))
           eq_refl eq_refl eq_refl eq_refl eq_refl eq_refl eq_refl eq_refl).
Defined.

(** C4 (as stated) fails: the request carries the code of A and the numeric
    amount 0, and is answered 400. *)
Lemma order_zero_amount_rejected :
  body_amount (order_of 0 "AAA") = Num 0
  /\ body_code (order_of 0 "AAA") = Str "AAA"
  /\ snd (post_order unparsed abc_state (order_of 0 "AAA")) =
     Error 400 "amount & code required".
Proof. repeat split; reflexivity. Qed.

(** C5 (as stated) fails: the order is valid, its amount [MIN_VALUE] is
    positive, and there is no level-1 payout; nothing is recorded for the
    owner. *)
Lemma tiny_order_has_no_level1_payout :
  (0 <? MIN_VALUE)%float = true
  /\ (MIN_VALUE * 0.10 = 0)%float
  /\ (exists owner, findUserByCode (users abc_state) (Str "AAA") = Some owner)
  /\ snd (post_order unparsed abc_state (order_of MIN_VALUE "AAA")) =
     OrderCreated 1 MIN_VALUE (Str "AAA") []
  /\ commissions (fst (post_order unparsed abc_state (order_of MIN_VALUE "AAA")))
     = [].
Proof. repeat split; try reflexivity. eexists. reflexivity. Qed.

(** An order of amount 100 attributed to ["CCC"]: the first payout is C's,
    of amount 10. *)
Lemma level1_payout_to_owner_scenario :
  (0 <? 100)%float = true
  /\ exists rest more,
      snd (post_order unparsed abc_state (order_of 100 "CCC")) =
        OrderCreated 1 100%float (Str "CCC") (Payout.mk 3 1 10%float :: rest)
      /\ Forall (fun p => 2 <= Payout.level p) rest
      /\ commissions (fst (post_order unparsed abc_state (order_of 100 "CCC"))) =
         [] ++ Commission.mk 1 3 1 0.10%float 10%float :: more
      /\ Forall (fun c => 2 <= Commission.level c) more.
Proof.
  exact (level1_payout_to_owner unparsed abc_state (order_of 100 "CCC")
           100%float _ eq_refl eq_refl eq_refl eq_refl).
Defined.

(** C7 (as stated) fails: E's referrer code ["ZZZ"] belongs to nobody, and
    an order of amount -100 attributed to E's code is answered 200 with an
    empty payouts array: the level-1 entry is not in it. *)
Lemma broken_chain_negative_amount :
  exists owner : User.t,
    findUserByCode (users dangling_state) (Str "EEE") = Some owner
    /\ User.referrerCode owner = Str "ZZZ"
    /\ findUserByCode (users dangling_state) (Str "ZZZ") = None
    /\ snd (post_order unparsed dangling_state (order_of (-100) "EEE")) =
       OrderCreated 1 (-100)%float (Str "EEE") [].
Proof. eexists. repeat split; reflexivity. Qed.

(** An order of amount 100 attributed to E's code pays E alone. *)
Lemma broken_chain_scenario :
  buildUpline (users dangling_state) (Str "ZZZ") (length COMMISSION_LEVELS) = []
  /\ snd (post_order unparsed dangling_state (order_of 100 "EEE")) =
     OrderCreated 1 100%float (Str "EEE") [Payout.mk 1 1 10%float].
Proof.
  exact (broken_chain_pays_level1_only unparsed dangling_state
           (order_of 100 "EEE") _ eq_refl eq_refl eq_refl eq_refl).
Defined.

(** C8 (as stated) fails: A has no referrer, and an order of amount -50
    attributed to ["AAA"] is answered 200 with an empty payouts array. *)
Lemma no_referrer_negative_amount :
  exists owner : User.t,
    findUserByCode (users abc_state) (Str "AAA") = Some owner
    /\ User.referrerCode owner = Null
    /\ snd (post_order unparsed abc_state (order_of (-50) "AAA")) =
       OrderCreated 1 (-50)%float (Str "AAA") [].
Proof. eexists. repeat split; reflexivity. Qed.

(** The scenario of C8: an order of amount 50 attributed to ["AAA"] pays
    A 5. *)
Lemma no_referrer_scenario :
  snd (post_order unparsed abc_state (order_of 50 "AAA")) =
    OrderCreated 1 50%float (Str "AAA") [Payout.mk 1 1 5%float].
Proof.
  exact (no_referrer_pays_level1_only unparsed abc_state (order_of 50 "AAA")
           _ eq_refl eq_refl eq_refl eq_refl).
Defined.

(** An order for a code nobody owns is answered 404 and leaves both lists
    empty. *)
Lemma order_unknown_code_scenario :
  (404 = 400 \/ 404 = 404)
  /\ orders (fst (post_order unparsed abc_state (order_of 100 "NOPE"))) = []
  /\ commissions (fst (post_order unparsed abc_state (order_of 100 "NOPE"))) = [].
Proof.
  exact (order_error_appends_nothing unparsed abc_state (order_of 100 "NOPE")
           404 "Referral code not found" eq_refl).
Defined.

(** C10 (as stated) fails: an order of amount 37 attributed to ["CCC"] pays
    3.7, 1.85 and 0.74.  Added up the way the server adds commissions (a
    left fold from 0) they make 6.290000000000001, more than
    0.17 × 37 = 6.29; and the exact sum of the three recorded amounts is
    more than 17/100 of 37 as well. *)
Lemma payouts_exceed_seventeen_percent :
  exists payouts : list Payout.t,
    snd (post_order unparsed abc_state (order_of 37 "CCC")) =
      OrderCreated 1 37%float (Str "CCC") payouts
    /\ map Payout.amount payouts = [3.7; 1.85; 0.74]%float
    /\ fold_left (fun sum p => (sum + Payout.amount p)%float) payouts 0%float
       = 6.290000000000001%float
    /\ (0.17 * 37 = 6.29)%float
    /\ (6.290000000000001 <=? 0.17 * 37)%float = false
    /\ ((17 # 100) * exact_value 37 <
        exact_value 3.7 + exact_value 1.85 + exact_value 0.74)%Q.
Proof.
  eexists. split; [reflexivity |]. repeat split; vm_compute; reflexivity.
Qed.

(** The amended bound on the same order of amount 37: the three recorded
    amounts 3.7, 1.85 and 0.74 add up to at most 17/100 of 37, times
    1 + 2^-52, plus 2^-1073. *)
Lemma order_payouts_within_schedule_scenario :
  exists appended : list Commission.t,
    commissions (fst (post_order unparsed abc_state (order_of 37 "CCC"))) =
      commissions abc_state ++ appended
    /\ map Commission.amount appended =
       map Payout.amount
         [ Payout.mk 3 1 3.7%float; Payout.mk 2 2 1.85%float;
           Payout.mk 1 3 0.74%float ]
    /\ (((37 <? infinity)%float = true
         /\ (fold_right Qplus 0 (map exact_value (map Commission.amount appended))
             <= (17 # 100) * exact_value 37 * (1 + 2 ^ (-52))
                + 2 ^ (-1073))%Q)
        \/ (37%float = infinity
            /\ Forall (fun x => x = infinity)
                 (map Commission.amount appended))).
Proof.
  exact (order_payouts_within_schedule unparsed abc_state
           (order_of 37 "CCC") 1 37%float (Str "CCC")
           [ Payout.mk 3 1 3.7%float; Payout.mk 2 2 1.85%float;
             Payout.mk 1 3 0.74%float ]
           eq_refl eq_refl).
Defined.

(** The term 2^-1073 of the amended bound is needed in the subnormal
    range: an order of amount 15 × 2^-1074 attributed to ["CCC"] pays
    2 × 2^-1074 and 2^-1074, which is more than 17/100 of the amount times
    1 + 2^-52; and an order of amount [Infinity] pays [Infinity] at every
    level. *)
Lemma subnormal_order_total :
  (exists payouts : list Payout.t,
     snd (post_order unparsed abc_state (order_of 0xfp-1074 "CCC")) =
       OrderCreated 1 0xfp-1074%float (Str "CCC") payouts
     /\ map Payout.amount payouts = [0x2p-1074; 0x1p-1074]%float
     /\ ((17 # 100) * exact_value 0xfp-1074 * (1 + 2 ^ (-52)) <
         exact_value 0x2p-1074 + exact_value 0x1p-1074)%Q)
  /\ (exists payouts : list Payout.t,
        snd (post_order unparsed abc_state (order_of infinity "CCC")) =
          OrderCreated 1 infinity (Str "CCC") payouts
        /\ map Payout.amount payouts = [infinity; infinity; infinity]).
Proof.
  split; eexists; (split; [reflexivity |]); repeat split; vm_compute;
    reflexivity.
Qed.

(** An order of amount 100 attributed to ["CCC"]: the three candidates are
    all paid. *)
Lemma order_payout_candidates_scenario :
  exists (candidates : list Payout.t) (appended : list Commission.t),
    length candidates <= 3
    /\ map Payout.level candidates = firstn (length candidates) [1; 2; 3]
    /\ map Payout.amount candidates =
       firstn (length candidates) [10; 5; 2]%float
    /\ [ Payout.mk 3 1 10%float; Payout.mk 2 2 5%float; Payout.mk 1 3 2%float ]
       = filter (fun p => (0 <? Payout.amount p)%float) candidates
    /\ commissions (fst (post_order unparsed abc_state (order_of 100 "CCC")))
       = [] ++ appended
    /\ map Commission.amount appended = [10; 5; 2]%float.
Proof.
  exact (order_payout_candidates unparsed abc_state
           (order_of 100 "CCC") 1 100%float (Str "CCC")
           [ Payout.mk 3 1 10%float; Payout.mk 2 2 5%float; Payout.mk 1 3 2%float ]
           eq_refl).
Defined.

(** The same excess as the API shows it: after one order of amount 37
    attributed to the self-referring U, the public stats of U's code read a
    revenue of 37 and commissions of 6.290000000000001. *)
Lemma stats_after_self_referral_order :
  snd (get_stats
         (fst (post_order unparsed self_state (order_of 37 "UUU"))) "UUU") =
    Stats 0 1 37%float 6.290000000000001%float.
Proof. reflexivity. Qed.

(** * The rest of the server *)

(** ** Looking a code up *)

Lemma strict_eq_Str (s : string) (c : value) :
  strict_eq (Str s) c = true <-> c = Str s.
Proof.
  destruct c; cbn [strict_eq]; split; intros H; try discriminate.
  - apply String.eqb_eq in H. now subst.
  - injection H as ->. apply String.eqb_refl.
Qed.

(** The first match of a lookup. *)
Lemma findUserByCode_first :
  forall (users : list User.t) (code : value),
    match findUserByCode users code with
    | Some u =>
        code = Str (User.code u)
        /\ exists before after,
             users = before ++ u :: after
             /\ Forall (fun v => User.code v <> User.code u) before
    | None => forall u, In u users -> code <> Str (User.code u)
    end.
Proof.
  intros users code. unfold findUserByCode.
  induction users as [| v users IH]; cbn [find].
  - intros u [].
  - destruct (strict_eq (Str (User.code v)) code) eqn:Hv.
    + apply strict_eq_Str in Hv. split; [exact Hv |].
      exists [], users. split; [reflexivity | constructor].
    + destruct (find _ users) as [u |].
      * destruct IH as (Hc & before & after & Hus & Hbefore).
        split; [exact Hc |].
        exists (v :: before), after. split; [now rewrite Hus |].
        constructor; [| exact Hbefore].
        intros Heq. rewrite <- Heq in Hc. apply strict_eq_Str in Hc.
        congruence.
      * intros u [<- | Hin]; [| now apply IH].
        intros Hc. apply strict_eq_Str in Hc. congruence.
Qed.

(** X1: [findUserByCode] answers the first user of the directory whose code
    is the string looked up: the users before it have another code, and a
    user registered later with the same code is never found.  It finds
    nobody exactly when no user has that code; a code that is not a string
    resolves to nobody. *)
Theorem findUserByCode_first_match :
  forall (users : list User.t) (code : value),
    match findUserByCode users code with
    | Some u =>
        code = Str (User.code u)
        /\ exists before after,
             users = before ++ u :: after
             /\ Forall (fun v => User.code v <> User.code u) before
    | None => forall u, In u users -> code <> Str (User.code u)
    end.
Proof. exact findUserByCode_first. Qed.

(** ** The shape of an upline *)

Lemma buildUpline_from_chain users currentCode left :
  Forall (fun u => In u users) (buildUpline_from users currentCode left)
  /\ map (fun u => Str (User.code u)) (buildUpline_from users currentCode left)
     = firstn (length (buildUpline_from users currentCode left))
         (currentCode ::
          map User.referrerCode (buildUpline_from users currentCode left)).
Proof.
  revert currentCode.
  induction left as [| n IH]; intros c; cbn [buildUpline_from].
  - split; [constructor | reflexivity].
  - destruct (truthy c) eqn:Ht; cbn [negb]; [| split; [constructor | reflexivity]].
    destruct (findUserByCode users c) as [r |] eqn:Hf;
      [| split; [constructor | reflexivity]].
    pose proof (findUserByCode_first users c) as Hfirst.
    rewrite Hf in Hfirst. destruct Hfirst as (Hc & before & after & Hus & _).
    destruct (IH (or_null (User.referrerCode r))) as (Hin & Hchain).
    split.
    + constructor; [rewrite Hus; apply in_elt | exact Hin].
    + cbn [map length firstn]. rewrite <- Hc. f_equal.
      rewrite Hchain.
      destruct (buildUpline_from users (or_null (User.referrerCode r)) n)
        as [| r' rest] eqn:Hrest; [reflexivity |].
      cbn [length firstn map]. f_equal.
      (* the walk went on, so the referrer code of [r] was truthy *)
      destruct n as [| n']; [discriminate |].
      cbn [buildUpline_from] in Hrest. unfold or_null in Hrest |- *.
      destruct (truthy (User.referrerCode r)); [reflexivity |].
      discriminate.
Qed.

(** X2: an upline is a referral chain of registered users.  Every member of
    the list [buildUpline] returns belongs to the directory; the first
    member's code is the code the walk started from, and the code of each
    further member is the referrerCode of the member before it. *)
Theorem buildUpline_is_referral_chain :
  forall (users : list User.t) (refCode : value) (levels : nat),
    Forall (fun u => In u users) (buildUpline users refCode levels)
    /\ map (fun u => Str (User.code u)) (buildUpline users refCode levels)
       = firstn (length (buildUpline users refCode levels))
           (refCode ::
            map User.referrerCode (buildUpline users refCode levels)).
Proof. intros. apply buildUpline_from_chain. Qed.

(** X3: walking fewer levels gives a prefix of the longer walk: the upline
    for [levels] is the first [levels] members of the upline for any larger
    bound. *)
Theorem buildUpline_prefix_of_longer_walk :
  forall (users : list User.t) (refCode : value) (levels more : nat),
    buildUpline users refCode levels =
    firstn levels (buildUpline users refCode (levels + more)).
Proof.
  intros users refCode levels more. unfold buildUpline. revert refCode.
  induction levels as [| n IH]; intros c; [reflexivity |].
  cbn [Nat.add buildUpline_from].
  destruct (negb (truthy c)); [reflexivity |].
  destruct (findUserByCode users c) as [r |]; [| reflexivity].
  cbn [firstn]. f_equal. apply IH.
Qed.

(** ** What an order records *)

(** The records [forEach] appends, in full. *)
Lemma forEach_upline_records order upline idx commissions payouts :
  exists cs,
    forEach_upline order upline idx commissions payouts =
      (commissions ++ cs,
       payouts ++
       map (fun c => Payout.mk (Commission.earnerUserId c) (Commission.level c)
                       (Commission.amount c)) cs)
    /\ Forall (fun c =>
                 Commission.orderId c = Order.id order
                 /\ (exists u, In u upline
                               /\ Commission.earnerUserId c = User.id u)
                 /\ idx + 2 <= Commission.level c
                 /\ Commission.level c <= length COMMISSION_LEVELS
                 /\ Commission.percent c =
                    nth (Commission.level c - 1) COMMISSION_LEVELS 0%float
                 /\ Commission.amount c =
                    (Order.amount order * Commission.percent c)%float
                 /\ (0 <? Commission.amount c)%float = true) cs
    /\ NoDup (map Commission.level cs).
Proof.
  revert idx commissions payouts.
  induction upline as [| u rest IH]; intros idx c p.
  - exists []. cbn [forEach_upline map]. rewrite !app_nil_r.
    repeat split; constructor.
  - cbn [forEach_upline].
    destruct (0 <? Order.amount order * nth (idx + 1) COMMISSION_LEVELS 0)%float
      eqn:Hpos.
    + assert (Hidx : idx + 1 < 3).
      { destruct (Nat.lt_ge_cases (idx + 1) (length COMMISSION_LEVELS))
          as [Hlt | Hge]; [exact Hlt |].
        rewrite (nth_overflow COMMISSION_LEVELS 0%float Hge),
          mul_zero_not_positive in Hpos. discriminate. }
      match goal with
      | |- context [forEach_upline order rest (S idx) ?c' ?p'] =>
          destruct (IH (S idx) c' p') as (cs & Heq & Hcs & Hnd)
      end.
      exists (Commission.mk (Order.id order) (User.id u) (idx + 2)
                (nth (idx + 1) COMMISSION_LEVELS 0%float)
                (Order.amount order * nth (idx + 1) COMMISSION_LEVELS 0)%float
              :: cs).
      rewrite Heq. unfold push. rewrite <- !app_assoc.
      split; [reflexivity |]. split.
      * constructor.
        -- cbn. replace (idx + 2 - 1) with (idx + 1) by lia.
           repeat split; try reflexivity; try lia; try exact Hpos.
           exists u. split; [now left | reflexivity].
        -- eapply Forall_impl; [| exact Hcs]. cbn.
           intros x (H1 & (v & Hv & H2) & H3 & H4 & H5 & H6 & H7).
           repeat split; try assumption; try lia.
           exists v. split; [now right | exact H2].
      * cbn [map Commission.level]. constructor; [| exact Hnd].
        intros Hin. apply in_map_iff in Hin. destruct Hin as (x & Hx & Hin).
        rewrite Forall_forall in Hcs. destruct (Hcs x Hin) as (_ & _ & H3 & _).
        lia.
    + destruct (IH (S idx) c p) as (cs & Heq & Hcs & Hnd).
      exists cs. split; [exact Heq |]. split; [| exact Hnd].
      eapply Forall_impl; [| exact Hcs]. cbn.
      intros x (H1 & (v & Hv & H2) & H3 & H4 & H5 & H6 & H7).
      repeat split; try assumption; try lia.
      exists v. split; [now right | exact H2].
Qed.

Section ServerProperties.

Variable StringToNumber : string -> float.

(** The whole effect of an order that passes validation and lookup. *)
Lemma post_order_effect st body owner :
  truthy (body_amount body) = true ->
  truthy (body_code body) = true ->
  findUserByCode (users st) (body_code body) = Some owner ->
  exists appended,
    post_order StringToNumber st body =
      (mkState (users st) (clicks st)
         (orders st ++
          [Order.mk (length (orders st) + 1)
             (Number StringToNumber (body_amount body)) (body_code body)
             (or_null (body_buyerEmail body))])
         (commissions st ++ appended),
       OrderCreated (length (orders st) + 1)
         (Number StringToNumber (body_amount body)) (body_code body)
         (map (fun c => Payout.mk (Commission.earnerUserId c)
                          (Commission.level c) (Commission.amount c))
            appended))
    /\ Forall (fun c =>
                 Commission.orderId c = length (orders st) + 1
                 /\ (exists u, In u (users st)
                               /\ Commission.earnerUserId c = User.id u)
                 /\ 1 <= Commission.level c
                 /\ Commission.level c <= length COMMISSION_LEVELS
                 /\ Commission.percent c =
                    nth (Commission.level c - 1) COMMISSION_LEVELS 0%float
                 /\ Commission.amount c =
                    (Number StringToNumber (body_amount body)
                     * Commission.percent c)%float
                 /\ (0 <? Commission.amount c)%float = true) appended
    /\ NoDup (map Commission.level appended).
Proof.
  intros Ha Hc Hown.
  rewrite (post_order_created StringToNumber st body owner Ha Hc Hown).
  cbv zeta.
  assert (Howner : In owner (users st)).
  { pose proof (findUserByCode_first (users st) (body_code body)) as H.
    rewrite Hown in H. destruct H as (_ & before & after & -> & _).
    apply in_elt. }
  pose proof (buildUpline_from_chain (users st)
                (User.referrerCode owner) 3) as (Hupline & _).
  fold (buildUpline (users st) (User.referrerCode owner) 3) in Hupline.
  rewrite Forall_forall in Hupline.
  match goal with
  | |- context [forEach_upline ?o ?u 0 ?c ?p] =>
      destruct (forEach_upline_records o u 0 c p) as (cs & Heq & Hcs & Hnd);
      rewrite Heq
  end.
  cbn [fst snd Order.id Order.amount] in Hcs |- *.
  assert (Hcs' : Forall (fun c =>
                 Commission.orderId c = length (orders st) + 1
                 /\ (exists u, In u (users st)
                               /\ Commission.earnerUserId c = User.id u)
                 /\ 1 <= Commission.level c
                 /\ Commission.level c <= length COMMISSION_LEVELS
                 /\ Commission.percent c =
                    nth (Commission.level c - 1) COMMISSION_LEVELS 0%float
                 /\ Commission.amount c =
                    (Number StringToNumber (body_amount body)
                     * Commission.percent c)%float
                 /\ (0 <? Commission.amount c)%float = true) cs).
  { eapply Forall_impl; [| exact Hcs]. cbn.
    intros x (H1 & (v & Hv & H2) & H3 & H4 & H5 & H6 & H7).
    repeat split; try assumption; try lia.
    exists v. split; [apply Hupline; exact Hv | exact H2]. }
  destruct (0 <? Number StringToNumber (body_amount body) * 0.10)%float eqn:Hl1;
    cbn [fst snd].
  - exists (Commission.mk (length (orders st) + 1) (User.id owner) 1 0.10%float
              (Number StringToNumber (body_amount body) * 0.10)%float :: cs).
    rewrite <- app_assoc. split; [reflexivity |]. split.
    + constructor; [| exact Hcs'].
      cbn. repeat split; try reflexivity; try lia; try exact Hl1.
      exists owner. split; [exact Howner | reflexivity].
    + cbn [map Commission.level]. constructor; [| exact Hnd].
      intros Hin. apply in_map_iff in Hin. destruct Hin as (x & Hx & Hin).
      rewrite Forall_forall in Hcs. destruct (Hcs x Hin) as (_ & _ & H3 & _).
      lia.
  - exists cs. split; [reflexivity |]. split; [exact Hcs' | exact Hnd].
Qed.

(** ** The invariant along a run *)

Lemma nth_error_app_Some {A : Type} (l l' : list A) n x :
  nth_error l n = Some x -> nth_error (l ++ l') n = Some x.
Proof.
  intros H. rewrite nth_error_app1; [exact H |].
  apply nth_error_Some. congruence.
Qed.

Lemma position_of_id {A : Type} (id : A -> nat) (l : list A) (x : A) :
  map id l = seq 1 (length l) -> In x l ->
  nth_error l (id x - 1) = Some x /\ 1 <= id x /\ id x <= length l.
Proof.
  intros Hids Hin. apply In_nth_error in Hin. destruct Hin as (n & Hn).
  assert (Hlt : n < length l) by (apply nth_error_Some; congruence).
  pose proof (map_nth_error id n l Hn) as Hid.
  rewrite Hids in Hid.
  rewrite (nth_error_nth' (seq 1 (length l)) 0) in Hid
    by (rewrite length_seq; exact Hlt).
  rewrite seq_nth in Hid by exact Hlt. injection Hid as Hid.
  replace (id x - 1) with n by lia. split; [exact Hn | lia].
Qed.

Lemma findUserByCode_app users more code u :
  findUserByCode users code = Some u ->
  findUserByCode (users ++ more) code = Some u.
Proof.
  unfold findUserByCode. induction users as [| v users IH]; cbn [find app];
    [discriminate |].
  destruct (strict_eq (Str (User.code v)) code); [trivial | exact IH].
Qed.

Lemma post_signup_cases st body genCode :
  (exists status error,
      post_signup st body genCode = (st, Error status error)
      /\ (status = 400 \/ status = 409))
  \/ post_signup st body genCode = (st, Unmodelled)
  \/ (truthy (body_name body) = true /\ truthy (body_email body) = true
      /\ truthy (body_password body) = true
      /\ existsb (fun u => strict_eq (User.email u) (body_email body))
           (users st) = false
      /\ post_signup st body genCode =
         (mkState
            (users st ++
             [User.mk (length (users st) + 1) (body_name body)
                (body_email body) genCode (or_null (body_ref body))])
            (clicks st) (orders st) (commissions st),
          SignedUp
            (User.mk (length (users st) + 1) (body_name body)
               (body_email body) genCode (or_null (body_ref body))))).
Proof.
  unfold post_signup.
  destruct (truthy (body_email body)); cbn [negb orb];
    [| left; eauto 6].
  destruct (truthy (body_password body)) eqn:Hp; cbn [negb orb];
    [| left; eauto 6].
  destruct (truthy (body_name body)); cbn [negb];
    [| left; eauto 6].
  destruct (existsb _ (users st)); [left; eauto 6 |].
  destruct (body_password body); try (right; left; reflexivity).
  right. right. repeat split; reflexivity.
Qed.

Lemma or_null_shape (v : value) : or_null v = Null \/ truthy (or_null v) = true.
Proof.
  unfold or_null. destruct (truthy v) eqn:Hv; [right; exact Hv | left; reflexivity].
Qed.

Lemma post_signup_consistent st body genCode :
  consistent st -> consistent (fst (post_signup st body genCode)).
Proof.
  intros Hst.
  destruct (post_signup_cases st body genCode)
    as [(status & error & Heq & _) | [Heq | (Hn & He & _ & _ & Heq)]];
    rewrite Heq; cbn [fst]; try exact Hst.
  destruct Hst as (Hu & Ho & Hus & Hos & Hcs & Hnd).
  unfold consistent. cbn [users orders commissions].
  refine (conj _ (conj Ho (conj _ (conj _ (conj _ Hnd))))).
  - rewrite map_app, length_app, Hu. cbn [map length User.id].
    rewrite Nat.add_1_r, seq_S. f_equal; try (f_equal; lia).
  - apply Forall_app. split; [exact Hus |].
    constructor; [| constructor]. cbn. repeat split; try assumption.
    apply or_null_shape.
  - eapply Forall_impl; [| exact Hos]. cbn. intros o (Ht & u & Hf).
    split; [exact Ht |]. exists u. apply findUserByCode_app. exact Hf.
  - eapply Forall_impl; [| exact Hcs]. cbn.
    intros c ((u & Hnth & Hid) & Hrest).
    split; [| exact Hrest]. exists u. split; [| exact Hid].
    apply nth_error_app_Some. exact Hnth.
Qed.

Lemma post_order_consistent st body :
  consistent st -> consistent (fst (post_order StringToNumber st body)).
Proof.
  intros Hst.
  destruct (post_order_cases StringToNumber st body)
    as [(_ & Heq) | [(_ & _ & _ & Heq) | (owner & Ha & Hc & Hf)]];
    try (rewrite Heq; exact Hst).
  destruct (post_order_effect st body owner Ha Hc Hf)
    as (appended & Heq & Happ & Hlevels).
  rewrite Heq. cbn [fst].
  destruct Hst as (Hu & Ho & Hus & Hos & Hcs & Hnd).
  unfold consistent. cbn [users orders commissions].
  refine (conj Hu (conj _ (conj Hus (conj _ (conj _ _))))).
  - rewrite map_app, length_app, Ho. cbn [map length Order.id].
    rewrite Nat.add_1_r, seq_S. f_equal; try (f_equal; lia).
  - apply Forall_app. split; [exact Hos |].
    constructor; [| constructor]. cbn. split; [exact Hc | eauto].
  - apply Forall_app. split.
    + eapply Forall_impl; [| exact Hcs]. cbn.
      intros c (Hearner & (o & Hnth & Hrest) & Hlev).
      split; [exact Hearner |]. split; [| exact Hlev].
      exists o. split; [apply nth_error_app_Some; exact Hnth | exact Hrest].
    + eapply Forall_impl; [| exact Happ]. cbn beta.
      intros c (Hoid & (u & Hin & Hid) & Hl1 & Hl3 & Hper & Hamt & _).
      destruct (position_of_id User.id (users st) u Hu Hin) as (Hnth & _).
      split; [exists u; rewrite Hid; split; [exact Hnth | reflexivity] |].
      split; [| repeat split; assumption].
      exists (Order.mk (length (orders st) + 1)
                (Number StringToNumber (body_amount body)) (body_code body)
                (or_null (body_buyerEmail body))).
      rewrite Hoid. split; [| split; [reflexivity | exact Hamt]].
      rewrite nth_error_app2 by lia.
      replace (length (orders st) + 1 - 1 - length (orders st)) with 0 by lia.
      reflexivity.
  - rewrite map_app. apply NoDup_app; [exact Hnd | |].
    + apply (NoDup_map_inv snd). rewrite map_map. cbn [snd]. exact Hlevels.
    + intros (oid, lev) Hold Hnew.
      apply in_map_iff in Hold. destruct Hold as (c & Hc1 & Hcin).
      apply in_map_iff in Hnew. destruct Hnew as (c' & Hc2 & Hcin').
      rewrite Forall_forall in Hcs, Happ.
      destruct (Hcs c Hcin) as (_ & (o & Hnth & _) & _).
      destruct (Happ c' Hcin') as (Hoid & _).
      assert (Hlt : Commission.orderId c - 1 < length (orders st))
        by (apply nth_error_Some; congruence).
      destruct (Hcs c Hcin) as (_ & _ & _).
      injection Hc1 as Ho1 _. injection Hc2 as Ho2 _.
      assert (Hpos : 1 <= Commission.orderId c).
      { destruct (Hcs c Hcin) as (_ & (o' & Hnth' & Hido & _) & _).
        pose proof (position_of_id Order.id (orders st) o' Ho
                      (nth_error_In _ _ Hnth')) as (_ & H1 & _).
        lia. }
      lia.
Qed.

Lemma handle_consistent st r :
  consistent st -> consistent (fst (handle StringToNumber st r)).
Proof.
  intros Hst. destruct r as [body genCode | code | code | body | | | |];
    cbn [handle fst]; try exact Hst.
  - apply post_signup_consistent. exact Hst.
  - unfold get_click. destruct (findUserByCode _ _); exact Hst.
  - unfold get_stats. destruct (findUserByCode _ _); exact Hst.
  - apply post_order_consistent. exact Hst.
Qed.

Lemma run_consistent reqs st :
  consistent st -> consistent (run StringToNumber reqs st).
Proof.
  unfold run. revert st.
  induction reqs as [| r reqs IH]; intros st Hst; [exact Hst |].
  cbn [fold_left]. apply IH. apply handle_consistent. exact Hst.
Qed.

Lemma initial_state_consistent : consistent initial_state.
Proof. repeat split; constructor. Qed.

(** X4: ids follow the order of arrival.  After any sequence of requests
    the users carry the ids 1, 2, ..., n in the order they signed up, and
    the orders the ids 1, 2, ..., m in the order they were placed; so an id
    names one user, or one order. *)
Theorem ids_follow_positions :
  forall reqs : list request,
    map User.id (users (run StringToNumber reqs initial_state)) =
      seq 1 (length (users (run StringToNumber reqs initial_state)))
    /\ map Order.id (orders (run StringToNumber reqs initial_state)) =
       seq 1 (length (orders (run StringToNumber reqs initial_state))).
Proof.
  intros reqs.
  destruct (run_consistent reqs initial_state initial_state_consistent)
    as (Hu & Ho & _).
  split; assumption.
Qed.

(** X5: after any sequence of requests every commission record points to a
    registered user, its earner, and to a recorded order, and its amount is
    that order's amount times the record's percent, which is the percent of
    the schedule for the record's level. *)
Theorem commissions_refer_to_order_and_earner :
  forall reqs : list request,
    Forall (fun c =>
              (exists u,
                  nth_error (users (run StringToNumber reqs initial_state))
                    (Commission.earnerUserId c - 1) = Some u
                  /\ User.id u = Commission.earnerUserId c)
              /\ (exists o,
                     nth_error (orders (run StringToNumber reqs initial_state))
                       (Commission.orderId c - 1) = Some o
                     /\ Order.id o = Commission.orderId c
                     /\ Commission.amount c =
                        (Order.amount o * Commission.percent c)%float)
              /\ Commission.percent c =
                 nth (Commission.level c - 1) COMMISSION_LEVELS 0%float)
      (commissions (run StringToNumber reqs initial_state)).
Proof.
  intros reqs.
  destruct (run_consistent reqs initial_state initial_state_consistent)
    as (_ & _ & _ & _ & Hcs & _).
  eapply Forall_impl; [| exact Hcs]. cbn beta.
  intros c (He & Ho & _ & _ & Hp). auto.
Qed.

(** X6: after any sequence of requests no order has two commission records
    of the same level: the pairs (orderId, level) of the log are pairwise
    distinct, whatever cycles the referral graph has. *)
Theorem one_commission_per_order_and_level :
  forall reqs : list request,
    NoDup (map (fun c => (Commission.orderId c, Commission.level c))
             (commissions (run StringToNumber reqs initial_state))).
Proof.
  intros reqs.
  destruct (run_consistent reqs initial_state initial_state_consistent)
    as (_ & _ & _ & _ & _ & Hnd).
  exact Hnd.
Qed.

(** X7: signup never stores a falsy referrer code other than null: after
    any sequence of requests every user has a truthy name and email, and a
    referrerCode that is null or truthy (never the empty string, 0 or
    false). *)
Theorem stored_users_passed_signup :
  forall reqs : list request,
    Forall (fun u =>
              truthy (User.name u) = true
              /\ truthy (User.email u) = true
              /\ (User.referrerCode u = Null
                  \/ truthy (User.referrerCode u) = true))
      (users (run StringToNumber reqs initial_state)).
Proof.
  intros reqs.
  destruct (run_consistent reqs initial_state initial_state_consistent)
    as (_ & _ & Hus & _).
  exact Hus.
Qed.

(** X8: after any sequence of requests every recorded order is attributed
    to a truthy code that resolves to a registered user: users are never
    removed, so the owner of an order's code can always be looked up. *)
Theorem orders_stay_attributed :
  forall reqs : list request,
    Forall (fun o =>
              truthy (Order.code o) = true
              /\ exists u,
                  findUserByCode (users (run StringToNumber reqs initial_state))
                    (Order.code o) = Some u)
      (orders (run StringToNumber reqs initial_state)).
Proof.
  intros reqs.
  destruct (run_consistent reqs initial_state initial_state_consistent)
    as (_ & _ & _ & Hos & _).
  exact Hos.
Qed.

(** ** Append-only arrays *)

Lemma handle_appends st r :
  exists us cl os cs,
    fst (handle StringToNumber st r) =
      mkState (users st ++ us) (clicks st ++ cl) (orders st ++ os)
        (commissions st ++ cs).
Proof.
  assert (Hsame : st = mkState (users st ++ []) (clicks st ++ [])
                         (orders st ++ []) (commissions st ++ []))
    by (destruct st; cbn; now rewrite !app_nil_r).
  destruct r as [body genCode | code | code | body | | | |]; cbn [handle fst];
    try (exists [], [], [], []; exact Hsame).
  - destruct (post_signup_cases st body genCode)
      as [(status & error & Heq & _) | [Heq | (_ & _ & _ & _ & Heq)]];
      rewrite Heq; cbn [fst];
      try (exists [], [], [], []; exact Hsame).
    eexists _, [], [], [].
    f_equal; first [reflexivity | symmetry; apply app_nil_r].
  - unfold get_click. destruct (findUserByCode _ _); cbn [fst];
      [| exists [], [], [], []; exact Hsame].
    eexists [], _, [], [].
    f_equal; first [reflexivity | symmetry; apply app_nil_r].
  - unfold get_stats. destruct (findUserByCode _ _);
      exists [], [], [], []; exact Hsame.
  - destruct (post_order_cases StringToNumber st body)
      as [(_ & Heq) | [(_ & _ & _ & Heq) | (owner & Ha & Hc & Hf)]];
      try (rewrite Heq; exists [], [], [], []; exact Hsame).
    destruct (post_order_effect st body owner Ha Hc Hf) as (cs & Heq & _).
    rewrite Heq. cbn [fst]. eexists [], [], _, cs.
    f_equal; first [reflexivity | symmetry; apply app_nil_r].
Qed.

Lemma run_appends reqs st :
  exists us cl os cs,
    run StringToNumber reqs st =
      mkState (users st ++ us) (clicks st ++ cl) (orders st ++ os)
        (commissions st ++ cs).
Proof.
  unfold run. revert st. induction reqs as [| r reqs IH]; intros st.
  - exists [], [], [], []. destruct st; cbn. now rewrite !app_nil_r.
  - cbn [fold_left].
    destruct (handle_appends st r) as (us & cl & os & cs & Hstep).
    destruct (IH (fst (handle StringToNumber st r)))
      as (us' & cl' & os' & cs' & Hrest).
    rewrite Hrest, Hstep. cbn [users clicks orders commissions].
    exists (us ++ us'), (cl ++ cl'), (os ++ os'), (cs ++ cs').
    now rewrite !app_assoc.
Qed.

(** X9: the four arrays are append-only.  From any state, whatever the
    requests, the users, clicks, orders and commissions after the run are
    those before it followed by new records: nothing is ever updated,
    reordered or deleted. *)
Theorem arrays_are_append_only :
  forall (reqs : list request) (st : state),
    exists us cl os cs,
      users (run StringToNumber reqs st) = users st ++ us
      /\ clicks (run StringToNumber reqs st) = clicks st ++ cl
      /\ orders (run StringToNumber reqs st) = orders st ++ os
      /\ commissions (run StringToNumber reqs st) = commissions st ++ cs.
Proof.
  intros reqs st. destruct (run_appends reqs st) as (us & cl & os & cs & Heq).
  exists us, cl, os, cs. rewrite Heq. repeat split; reflexivity.
Qed.

(** X10: a referral code never changes hands.  Once a code resolves to a
    user, it resolves to the same user after any further requests, also
    when later signups are handed the same code. *)
Theorem code_owner_is_stable :
  forall (reqs : list request) (st : state) (code : value) (u : User.t),
    findUserByCode (users st) code = Some u ->
    findUserByCode (users (run StringToNumber reqs st)) code = Some u.
Proof.
  intros reqs st code u Hf.
  destruct (run_appends reqs st) as (us & cl & os & cs & Heq).
  rewrite Heq. cbn [users]. apply findUserByCode_app. exact Hf.
Qed.

Lemma order_records_mirror_payouts_aux st body orderId amount code payouts :
  snd (post_order StringToNumber st body) =
    OrderCreated orderId amount code payouts ->
  exists appended owner,
    fst (post_order StringToNumber st body) =
      mkState (users st) (clicks st)
        (orders st ++
         [Order.mk orderId amount code (or_null (body_buyerEmail body))])
        (commissions st ++ appended)
    /\ findUserByCode (users st) code = Some owner.
Proof.
  intros Hresp.
  destruct (post_order_cases StringToNumber st body)
    as [(_ & Heq) | [(_ & _ & _ & Heq) | (owner & Ha & Hc & Hf)]];
    try (rewrite Heq in Hresp; discriminate).
  destruct (post_order_effect st body owner Ha Hc Hf)
    as (appended & Heq & _).
  rewrite Heq in Hresp |- *. cbn [fst snd] in Hresp |- *.
  injection Hresp as <- <- <- <-.
  exists appended, owner. split; [reflexivity | exact Hf].
Qed.

(** X11: what a successful order records.  When [POST /order] answers 200,
    users and clicks are untouched, exactly one order is appended, with
    the id of the response (the number of orders so far plus one), and
    the payouts of the response are, in order, the commission records
    appended: same user, level and amount.  Each record carries the new
    order's id, an earner registered in the directory, the percent of the
    schedule for its level, and the order amount times that percent. *)
Theorem order_records_mirror_payouts :
  forall (st : state) (body : OrderBody) (orderId : nat) (amount : float)
         (code : value) (payouts : list Payout.t),
    snd (post_order StringToNumber st body) =
      OrderCreated orderId amount code payouts ->
    exists appended,
      fst (post_order StringToNumber st body) =
        mkState (users st) (clicks st)
          (orders st ++
           [Order.mk orderId amount code (or_null (body_buyerEmail body))])
          (commissions st ++ appended)
      /\ orderId = length (orders st) + 1
      /\ payouts =
         map (fun c => Payout.mk (Commission.earnerUserId c)
                         (Commission.level c) (Commission.amount c)) appended
      /\ Forall (fun c =>
                   Commission.orderId c = orderId
                   /\ (exists u, In u (users st)
                                 /\ Commission.earnerUserId c = User.id u)
                   /\ Commission.percent c =
                      nth (Commission.level c - 1) COMMISSION_LEVELS 0%float
                   /\ Commission.amount c =
                      (amount * Commission.percent c)%float) appended.
Proof.
  intros st body orderId amount code payouts Hresp.
  destruct (post_order_cases StringToNumber st body)
    as [(_ & Heq) | [(_ & _ & _ & Heq) | (owner & Ha & Hc & Hf)]];
    try (rewrite Heq in Hresp; discriminate).
  destruct (post_order_effect st body owner Ha Hc Hf)
    as (appended & Heq & Happ & _).
  rewrite Heq in Hresp |- *. cbn [fst snd] in Hresp |- *.
  injection Hresp as <- <- <- <-.
  exists appended. repeat split.
  eapply Forall_impl; [| exact Happ]. cbn beta.
  intros c (H1 & H2 & _ & _ & H5 & H6 & _). auto.
Qed.

(** ** Signup *)

(** X12: what signup checks, and what it does not.  [POST /auth/signup]
    stores a user exactly when name and email are truthy, the password is
    a non-empty string and no stored user has a strictly equal email; the
    referrer code plays no part, so a code nobody owns is accepted.  The
    user stored is appended with the next id, the generated code and
    [ref || null]; in every other case the state is unchanged. *)
Theorem signup_accepted_iff :
  forall (st : state) (body : SignupBody) (genCode : string),
    ((exists u, snd (post_signup st body genCode) = SignedUp u)
     <-> (truthy (body_name body) = true
          /\ truthy (body_email body) = true
          /\ (exists s, body_password body = Str s /\ s <> EmptyString)
          /\ forall v, In v (users st) ->
                strict_eq (User.email v) (body_email body) = false))
    /\ (forall u,
          snd (post_signup st body genCode) = SignedUp u ->
          u = User.mk (length (users st) + 1) (body_name body)
                (body_email body) genCode (or_null (body_ref body))
          /\ fst (post_signup st body genCode) =
             mkState (users st ++ [u]) (clicks st) (orders st)
               (commissions st))
    /\ ((forall u, snd (post_signup st body genCode) <> SignedUp u) ->
        fst (post_signup st body genCode) = st).
Proof.
  intros st body genCode.
  assert (Hex : existsb (fun u => strict_eq (User.email u) (body_email body))
                  (users st) = false
                <-> forall v, In v (users st) ->
                      strict_eq (User.email v) (body_email body) = false).
  { split.
    - intros H v Hin.
      destruct (strict_eq (User.email v) (body_email body)) eqn:E; [| reflexivity].
      assert (Ht : existsb (fun u => strict_eq (User.email u) (body_email body))
                     (users st) = true)
        by (apply existsb_exists; exists v; auto).
      congruence.
    - intros H.
      destruct (existsb _ (users st)) eqn:E; [| reflexivity].
      apply existsb_exists in E. destruct E as (v & Hin & Hv).
      rewrite (H v Hin) in Hv. discriminate. }
  unfold post_signup.
  destruct (truthy (body_email body)) eqn:He; cbn [negb orb].
  2: { cbn [fst snd]. split; [| split]; try reflexivity.
       - split; [intros (u & H); discriminate | intros (_ & H & _); discriminate].
       - intros u H; discriminate. }
  destruct (truthy (body_password body)) eqn:Hp; cbn [negb orb].
  2: { cbn [fst snd]. split; [| split]; try reflexivity.
       - split; [intros (u & H); discriminate |].
         intros (_ & _ & (s & Hs & Hne) & _). rewrite Hs in Hp. cbn in Hp.
         destruct s; [congruence | discriminate].
       - intros u H; discriminate. }
  destruct (truthy (body_name body)) eqn:Hn; cbn [negb].
  2: { cbn [fst snd]. split; [| split]; try reflexivity.
       - split; [intros (u & H); discriminate | intros (H & _); discriminate].
       - intros u H; discriminate. }
  destruct (existsb _ (users st)) eqn:Hdup.
  { cbn [fst snd]. split; [| split]; try reflexivity.
    - split; [intros (u & H); discriminate |].
      intros (_ & _ & _ & H). apply Hex in H. congruence.
    - intros u H; discriminate. }
  destruct (body_password body) as [| | b | x | s | o] eqn:Hpw; cbn [fst snd];
    try (split; [| split]; try reflexivity;
         [ split; [intros (u & H); discriminate
                  | intros (_ & _ & (s' & Hs & _) & _); discriminate]
         | intros u H; discriminate ]).
  split; [| split].
  - split; [intros _ | intros _; eauto].
    repeat split; try reflexivity.
    + exists s. split; [reflexivity |]. intros ->. discriminate.
    + apply Hex. reflexivity.
  - intros u H. injection H as <-. unfold push. split; reflexivity.
  - intros H. exfalso. eapply H. reflexivity.
Qed.

(** X13: signup does not check the generated code for collisions, and the
    earlier user keeps it.  After an accepted signup the generated code
    resolves to the new user when nobody had it, and to the user who had it
    before otherwise: the new user can then never be looked up by code. *)
Theorem signup_code_resolution :
  forall (st : state) (body : SignupBody) (genCode : string) (u : User.t),
    snd (post_signup st body genCode) = SignedUp u ->
    findUserByCode (users (fst (post_signup st body genCode))) (Str genCode) =
      match findUserByCode (users st) (Str genCode) with
      | Some earlier => Some earlier
      | None => Some u
      end.
Proof.
  intros st body genCode u Hresp.
  destruct (post_signup_cases st body genCode)
    as [(status & error & Heq & _) | [Heq | (_ & _ & _ & _ & Heq)]];
    rewrite Heq in Hresp |- *; cbn [fst snd] in Hresp |- *;
    try discriminate.
  injection Hresp as Hu. cbn [users]. rewrite Hu.
  assert (Hcode : User.code u = genCode) by (rewrite <- Hu; reflexivity).
  clear Hu Heq.
  destruct (findUserByCode (users st) (Str genCode)) as [earlier |] eqn:Hf.
  - apply findUserByCode_app. exact Hf.
  - unfold findUserByCode in Hf |- *.
    induction (users st) as [| v l IH]; cbn [find app] in Hf |- *.
    + rewrite Hcode. cbn [strict_eq]. rewrite String.eqb_refl. reflexivity.
    + destruct (strict_eq (Str (User.code v)) (Str genCode)); [discriminate |].
      apply IH. exact Hf.
Qed.

(** ** Clicks and public stats *)

(** X14: a recorded click raises the public click count of its code by
    exactly one.  When [GET /click/:code] answers with a total, that total
    is at least 1, [GET /stats/:code] showed one less before the click and
    shows the total after it, and the order count, revenue and commissions
    of the stats are unchanged. *)
Theorem click_raises_count_by_one :
  forall (st : state) (code : string) (total : nat),
    snd (get_click st code) = ClickRecorded total ->
    exists orderCount revenue commissionTotal,
      total = S (length (filter (fun c => (Click.code c =? code)%string)
                           (clicks st)))
      /\ snd (get_stats st code) =
         Stats (total - 1) orderCount revenue commissionTotal
      /\ snd (get_stats (fst (get_click st code)) code) =
         Stats total orderCount revenue commissionTotal.
Proof.
  intros st code total Hresp. unfold get_click in Hresp |- *.
  unfold get_stats.
  destruct (findUserByCode (users st) (Str code)) as [owner |] eqn:Hf;
    [| discriminate].
  cbn [fst snd users clicks orders commissions] in Hresp |- *.
  rewrite Hf. unfold push in Hresp |- *.
  rewrite filter_app, length_app in Hresp |- *.
  cbn [filter Click.code] in Hresp |- *.
  rewrite String.eqb_refl in Hresp |- *. cbn [length] in Hresp |- *.
  injection Hresp as <-.
  do 3 eexists. split; [lia |]. split.
  - cbn [snd]. f_equal. lia.
  - reflexivity.
Qed.

(** X15: a successful order shows in the public stats of its code: the
    order count goes up by one and the revenue by the order's amount (added
    last, in binary64), while the click count is unchanged. *)
Theorem order_shows_in_stats :
  forall (st : state) (body : OrderBody) (code : string) (orderId : nat)
         (amount : float) (payouts : list Payout.t),
    snd (post_order StringToNumber st body) =
      OrderCreated orderId amount (Str code) payouts ->
    exists totalClicks orderCount revenue commissionTotal commissionTotal',
      snd (get_stats st code) =
        Stats totalClicks orderCount revenue commissionTotal
      /\ snd (get_stats (fst (post_order StringToNumber st body)) code) =
         Stats totalClicks (S orderCount) (revenue + amount)%float
           commissionTotal'.
Proof.
  intros st body code orderId amount payouts Hresp.
  destruct (order_records_mirror_payouts_aux st body orderId amount (Str code)
              payouts Hresp) as (appended & owner & Hst & Hown).
  rewrite Hst. unfold get_stats. cbn [users clicks orders commissions].
  rewrite Hown. cbn [snd].
  rewrite filter_app. cbn [filter Order.code strict_eq].
  rewrite String.eqb_refl, length_app, fold_left_app.
  cbn [length fold_left Order.amount].
  do 5 eexists. split; [reflexivity |]. f_equal. lia.
Qed.

End ServerProperties.

(** ** The [auth] middleware *)

Lemma substring_whole (s : string) : substring 0 (String.length s) s = s.
Proof. induction s as [| a s IH]; cbn; [reflexivity | now rewrite IH]. Qed.

Lemma prefix_split (p h : string) :
  String.prefix p h = true ->
  h = (p ++ substring (String.length p) (String.length h - String.length p) h)%string.
Proof.
  revert h. induction p as [| a p IH]; intros h Hp.
  - cbn [String.length String.append]. rewrite Nat.sub_0_r.
    symmetry. apply substring_whole.
  - destruct h as [| b h]; cbn [String.prefix] in Hp; [discriminate |].
    destruct (Ascii.ascii_dec a b) as [<- | _]; [| discriminate].
    cbn [String.length String.append substring Nat.sub]. f_equal.
    apply IH. exact Hp.
Qed.

Lemma prefix_append (p t : string) : String.prefix p (p ++ t) = true.
Proof.
  induction p as [| a p IH]; cbn [String.append String.prefix];
    [destruct t; reflexivity |].
  destruct (Ascii.ascii_dec a a) as [_ | Hne]; [exact IH | congruence].
Qed.

Lemma substring_after_prefix (p t : string) :
  substring (String.length p)
    (String.length (p ++ t) - String.length p) (p ++ t)%string = t.
Proof.
  induction p as [| a p IH];
    cbn [String.append String.length substring Nat.sub].
  - rewrite Nat.sub_0_r. apply substring_whole.
  - exact IH.
Qed.

(** X16: whom [auth] lets through.  The middleware calls the handler with
    the verified payload exactly when the [authorization] header is
    ["Bearer "] followed by a non-empty token that [jwt.verify] accepts;
    the token verified is what follows the seven characters of the prefix.
    Every other request is answered 401. *)
Theorem auth_passes_iff :
  forall (verify : string -> option Payload.t)
         (authorization : option string) (user : Payload.t),
    (auth verify authorization = Next user
     <-> exists token,
           authorization = Some ("Bearer " ++ token)%string
           /\ token <> EmptyString
           /\ verify token = Some user)
    /\ (forall status error,
          auth verify authorization = Denied status error -> status = 401).
Proof.
  intros verify authorization user. split.
  - split.
    + unfold auth. intros H.
      destruct authorization as [h |]; [| cbn in H; discriminate].
      destruct (String.prefix "Bearer " h) eqn:Hp; [| discriminate].
      apply prefix_split in Hp. change (String.length "Bearer ") with 7 in Hp.
      destruct (substring 7 (String.length h - 7) h =? EmptyString)%string
        eqn:Hempty; [discriminate |].
      destruct (verify (substring 7 (String.length h - 7) h)) as [p |] eqn:Hv;
        [| discriminate].
      injection H as <-.
      exists (substring 7 (String.length h - 7) h).
      split; [f_equal; exact Hp |]. split; [| exact Hv].
      intros Habs. rewrite Habs in Hempty. discriminate.
    + intros (token & -> & Hne & Hv). unfold auth.
      rewrite prefix_append.
      pose proof (substring_after_prefix "Bearer " token) as Hsub.
      change (String.length "Bearer ") with 7 in Hsub. rewrite Hsub.
      destruct (token =? EmptyString)%string eqn:Hempty.
      * apply String.eqb_eq in Hempty. contradiction.
      * rewrite Hv. reflexivity.
  - intros status error. unfold auth.
    destruct (String.prefix "Bearer " _); [| intros H; now injection H].
    destruct (_ =? EmptyString)%string; [intros H; now injection H |].
    destruct (verify _); [discriminate | intros H; now injection H].
Qed.

(** ** The private routes *)

Lemma find_by_id {A : Type} (id : A -> nat) (l : list A) (start i : nat) (x : A) :
  map id l = seq start (length l) ->
  nth_error l i = Some x ->
  find (fun v => id v =? start + i)%nat l = Some x.
Proof.
  revert start i.
  induction l as [| v l IH]; intros start i Hids Hnth;
    [destruct i; discriminate |].
  cbn [map length seq] in Hids. injection Hids as Hv Hids.
  cbn [find]. destruct i as [| i]; cbn [nth_error] in Hnth.
  - injection Hnth as <-. rewrite Hv, Nat.add_0_r, Nat.eqb_refl. reflexivity.
  - rewrite Hv. destruct (Nat.eqb_spec start (start + S i)) as [Heq | _];
      [lia |].
    replace (start + S i) with (S start + i) by lia.
    apply IH; assumption.
Qed.

Section PrivateRoutes.

Variable StringToNumber : string -> float.
Variable verify : string -> option Payload.t.

(** X17: a token keeps naming its user.  Take any state the server can
    reach, an accepted signup there, and any requests after it.  A request
    to [GET /me] whose header is ["Bearer "] and a non-empty token that
    verifies to the new user's id is answered with that user's id, email,
    code and referrerCode, as stored at signup. *)
Theorem me_answers_the_signed_up_user :
  forall (before after : list request) (body : SignupBody) (genCode : string)
         (u : User.t) (token : string) (payload : Payload.t),
    snd (post_signup (run StringToNumber before initial_state) body genCode)
      = SignedUp u ->
    token <> EmptyString ->
    verify token = Some payload ->
    Payload.id payload = User.id u ->
    private_route verify get_me
      (run StringToNumber after
         (fst (post_signup (run StringToNumber before initial_state)
                 body genCode)))
      (Some ("Bearer " ++ token)%string)
    = Me (User.id u) (User.email u) (User.code u) (User.referrerCode u).
Proof.
  intros before after body genCode u token payload Hsign Hne Hv Hid.
  unfold private_route.
  assert (Hauth : auth verify (Some ("Bearer " ++ token)%string) = Next payload).
  { unfold auth. rewrite prefix_append.
    pose proof (substring_after_prefix "Bearer " token) as Hsub.
    change (String.length "Bearer ") with 7 in Hsub. rewrite Hsub.
    destruct (token =? EmptyString)%string eqn:Hempty.
    - apply String.eqb_eq in Hempty. contradiction.
    - rewrite Hv. reflexivity. }
  rewrite Hauth.
  set (st := run StringToNumber before initial_state) in *.
  assert (Hst : consistent st)
    by (apply run_consistent, initial_state_consistent).
  pose proof (post_signup_consistent st body genCode Hst) as Hst'.
  destruct (post_signup_cases st body genCode)
    as [(status & error & Heq & _) | [Heq | (_ & _ & _ & _ & Heq)]];
    rewrite Heq in Hsign, Hst' |- *; cbn [fst snd] in Hsign, Hst' |- *;
    try discriminate.
  injection Hsign as Hu. rewrite Hu in Hst' |- *.
  set (st' := mkState (users st ++ [u]) (clicks st) (orders st)
                (commissions st)) in *.
  pose proof (run_consistent StringToNumber after st' Hst') as (Hids & _).
  destruct (run_appends StringToNumber after st') as (us & cl & os & cs & Hrun).
  assert (Hin : In u (users (run StringToNumber after st'))).
  { rewrite Hrun. cbn [users st']. apply in_or_app. left.
    apply in_or_app. right. now left. }
  destruct (position_of_id User.id _ u Hids Hin) as (Hnth & Hpos & _).
  pose proof (find_by_id User.id _ 1 (User.id u - 1) u Hids Hnth) as Hfind.
  replace (1 + (User.id u - 1)) with (User.id u) in Hfind by lia.
  unfold get_me. rewrite Hid, Hfind. reflexivity.
Qed.

(** X18: private and public stats agree.  For a logged-in user whose code
    resolves to themselves, [GET /me/stats] reports the same clicks,
    orders, revenue and commission total as [GET /stats/:code] does for
    their code, and the commission total is the sum of the breakdown it
    lists. *)
Theorem me_stats_agree_with_public_stats :
  forall (st : state) (user : Payload.t) (me : User.t),
    find (fun u => User.id u =? Payload.id user)%nat (users st) = Some me ->
    findUserByCode (users st) (Str (User.code me)) = Some me ->
    exists clicks referrals orders revenue commissionTotal breakdown,
      get_me_stats st user =
        MeStats (User.code me) clicks referrals orders revenue commissionTotal
          breakdown
      /\ snd (get_stats st (User.code me)) =
         Stats clicks orders revenue commissionTotal
      /\ commissionTotal =
         fold_left (fun sum c => (sum + Commission.amount c)%float) breakdown
           0%float
      /\ Forall (fun c => Commission.earnerUserId c = User.id me) breakdown.
Proof.
  intros st user me Hme Hcode. unfold get_me_stats, get_stats.
  rewrite Hme, Hcode. cbn [snd]. do 6 eexists.
  split; [reflexivity |]. split; [reflexivity |]. split; [reflexivity |].
  apply Forall_forall. intros c Hc. apply filter_In in Hc.
  destruct Hc as (_ & Hc). apply Nat.eqb_eq in Hc. exact Hc.
Qed.

End PrivateRoutes.

(** ** Scenarios of the rest of the server *)

(** A later signup that is handed the code ["AAA"] does not take it from
    A. *)
Lemma code_owner_is_stable_scenario :
  findUserByCode
    (users (run unparsed [signup "Z" "z@example.org" "AAA" Undefined] abc_state))
    (Str "AAA")
  = Some (User.mk 1 (Str "A") (Str "a@example.org") "AAA" Null).
Proof.
  exact (code_owner_is_stable unparsed
           [signup "Z" "z@example.org" "AAA" Undefined] abc_state (Str "AAA")
           _ eq_refl).
Defined.

(** The records of the order of amount 100 attributed to ["CCC"]. *)
Lemma order_records_mirror_payouts_scenario :
  exists appended,
    fst (post_order unparsed abc_state (order_of 100 "CCC")) =
      mkState (users abc_state) (clicks abc_state)
        (orders abc_state ++ [Order.mk 1 100%float (Str "CCC") Null])
        (commissions abc_state ++ appended)
    /\ 1 = length (orders abc_state) + 1
    /\ [ Payout.mk 3 1 10%float; Payout.mk 2 2 5%float; Payout.mk 1 3 2%float ]
       = map (fun c => Payout.mk (Commission.earnerUserId c)
                         (Commission.level c) (Commission.amount c)) appended
    /\ Forall (fun c =>
                 Commission.orderId c = 1
                 /\ (exists u, In u (users abc_state)
                               /\ Commission.earnerUserId c = User.id u)
                 /\ Commission.percent c =
                    nth (Commission.level c - 1) COMMISSION_LEVELS 0%float
                 /\ Commission.amount c =
                    (100 * Commission.percent c)%float) appended.
Proof.
  exact (order_records_mirror_payouts unparsed abc_state (order_of 100 "CCC")
           1 100%float (Str "CCC")
           [ Payout.mk 3 1 10%float; Payout.mk 2 2 5%float; Payout.mk 1 3 2%float ]
           eq_refl).
Defined.

(** A fourth user who is handed A's code cannot be looked up by it. *)
Lemma signup_code_resolution_scenario :
  findUserByCode
    (users (fst (post_signup abc_state
                   (mkSignupBody (Str "Z") (Str "z@example.org") (Str "secret")
                      Undefined) "AAA")))
    (Str "AAA")
  = Some (User.mk 1 (Str "A") (Str "a@example.org") "AAA" Null).
Proof.
  exact (signup_code_resolution abc_state
           (mkSignupBody (Str "Z") (Str "z@example.org") (Str "secret")
              Undefined) "AAA" _ eq_refl).
Defined.

(** The first click on A's link. *)
Lemma click_raises_count_by_one_scenario :
  exists orderCount revenue commissionTotal,
    1 = S (length (filter (fun c => (Click.code c =? "AAA")%string)
                     (clicks abc_state)))
    /\ snd (get_stats abc_state "AAA") =
       Stats (1 - 1) orderCount revenue commissionTotal
    /\ snd (get_stats (fst (get_click abc_state "AAA")) "AAA") =
       Stats 1 orderCount revenue commissionTotal.
Proof. exact (click_raises_count_by_one abc_state "AAA" 1 eq_refl). Defined.

(** The first order attributed to ["CCC"] in its public stats. *)
Lemma order_shows_in_stats_scenario :
  exists totalClicks orderCount revenue commissionTotal commissionTotal',
    snd (get_stats abc_state "CCC") =
      Stats totalClicks orderCount revenue commissionTotal
    /\ snd (get_stats (fst (post_order unparsed abc_state (order_of 100 "CCC")))
              "CCC") =
       Stats totalClicks (S orderCount) (revenue + 100)%float commissionTotal'.
Proof.
  exact (order_shows_in_stats unparsed abc_state (order_of 100 "CCC") "CCC" 1
           100%float
           [ Payout.mk 3 1 10%float; Payout.mk 2 2 5%float; Payout.mk 1 3 2%float ]
           eq_refl).
Defined.

(** B signs up after A; C signs up and an order is placed; B's token still
    answers B. *)
Lemma me_answers_the_signed_up_user_scenario :
  private_route
    (fun token => if (token =? "tokenB")%string
                  then Some (Payload.mk 2 (Str "b@example.org") "BBB")
                  else None)
    get_me
    (run unparsed
       [signup "C" "c@example.org" "CCC" (Str "BBB");
        PostOrder (order_of 100 "CCC")]
       (fst (post_signup
               (run unparsed [signup "A" "a@example.org" "AAA" Undefined]
                  initial_state)
               (mkSignupBody (Str "B") (Str "b@example.org") (Str "secret")
                  (Str "AAA")) "BBB")))
    (Some "Bearer tokenB")
  = Me 2 (Str "b@example.org") "BBB" (Str "AAA").
Proof.
  refine (me_answers_the_signed_up_user unparsed
            (fun token => if (token =? "tokenB")%string
                          then Some (Payload.mk 2 (Str "b@example.org") "BBB")
                          else None)
            [signup "A" "a@example.org" "AAA" Undefined]
            [signup "C" "c@example.org" "CCC" (Str "BBB");
             PostOrder (order_of 100 "CCC")]
            (mkSignupBody (Str "B") (Str "b@example.org") (Str "secret")
               (Str "AAA")) "BBB"
            (User.mk 2 (Str "B") (Str "b@example.org") "BBB" (Str "AAA"))
            "tokenB" (Payload.mk 2 (Str "b@example.org") "BBB")
            eq_refl _ eq_refl eq_refl).
  discriminate.
Defined.

(** C's private and public stats in the directory of A, B and C. *)
Lemma me_stats_agree_with_public_stats_scenario :
  exists clicks referrals orders revenue commissionTotal breakdown,
    get_me_stats abc_state (Payload.mk 3 (Str "c@example.org") "CCC") =
      MeStats "CCC" clicks referrals orders revenue commissionTotal breakdown
    /\ snd (get_stats abc_state "CCC") =
       Stats clicks orders revenue commissionTotal
    /\ commissionTotal =
       fold_left (fun sum c => (sum + Commission.amount c)%float) breakdown
         0%float
    /\ Forall (fun c => Commission.earnerUserId c = 3) breakdown.
Proof.
  exact (me_stats_agree_with_public_stats abc_state
           (Payload.mk 3 (Str "c@example.org") "CCC")
           (User.mk 3 (Str "C") (Str "c@example.org") "CCC" (Str "BBB"))
           eq_refl eq_refl).
Defined.

(** ** Referrals and unknown codes *)

Lemma find_app_Some {A : Type} (f : A -> bool) (l l' : list A) (x : A) :
  find f l = Some x -> find f (l ++ l') = Some x.
Proof.
  induction l as [| v l IH]; cbn [find app]; [discriminate |].
  destruct (f v); [trivial | exact IH].
Qed.

(** X19: a signup that names a user's code counts as that user's referral.
    When a signup whose [ref] is the (non-empty) code of a logged-in user is
    accepted, that user's [GET /me/stats] shows one referral more and is
    otherwise unchanged; the referrer need not be the user the code
    resolves to. *)
Theorem signup_counts_as_referral :
  forall (st : state) (body : SignupBody) (genCode : string) (u : User.t)
         (user : Payload.t) (me : User.t),
    snd (post_signup st body genCode) = SignedUp u ->
    find (fun v => User.id v =? Payload.id user)%nat (users st) = Some me ->
    body_ref body = Str (User.code me) ->
    User.code me <> EmptyString ->
    exists clicks referrals orders revenue commissionTotal breakdown,
      get_me_stats st user =
        MeStats (User.code me) clicks referrals orders revenue commissionTotal
          breakdown
      /\ get_me_stats (fst (post_signup st body genCode)) user =
         MeStats (User.code me) clicks (S referrals) orders revenue
           commissionTotal breakdown.
Proof.
  intros st body genCode u user me Hsign Hme Href Hne.
  destruct (post_signup_cases st body genCode)
    as [(status & error & Heq & _) | [Heq | (_ & _ & _ & _ & Heq)]];
    rewrite Heq in Hsign |- *; cbn [fst snd] in Hsign |- *;
    try discriminate.
  clear Hsign Heq. unfold get_me_stats.
  cbn [users clicks orders commissions].
  rewrite (find_app_Some _ _ _ _ Hme), Hme.
  do 6 eexists. split; [reflexivity |]. f_equal.
  rewrite filter_app, length_app. cbn [filter User.referrerCode].
  rewrite Href. unfold or_null.
  assert (Ht : truthy (Str (User.code me)) = true).
  { cbn [truthy]. destruct (User.code me =? EmptyString)%string eqn:E;
      [apply String.eqb_eq in E; contradiction | reflexivity]. }
  rewrite Ht. cbn [strict_eq]. rewrite String.eqb_refl. cbn [length]. lia.
Qed.

(** One more referral for A when B signs up with A's code. *)
Lemma signup_counts_as_referral_scenario :
  exists clicks referrals orders revenue commissionTotal breakdown,
    get_me_stats abc_state (Payload.mk 1 (Str "a@example.org") "AAA") =
      MeStats "AAA" clicks referrals orders revenue commissionTotal breakdown
    /\ get_me_stats
         (fst (post_signup abc_state
                 (mkSignupBody (Str "F") (Str "f@example.org") (Str "secret")
                    (Str "AAA")) "FFF"))
         (Payload.mk 1 (Str "a@example.org") "AAA") =
       MeStats "AAA" clicks (S referrals) orders revenue commissionTotal
         breakdown.
Proof.
  refine (signup_counts_as_referral abc_state
            (mkSignupBody (Str "F") (Str "f@example.org") (Str "secret")
               (Str "AAA")) "FFF" _
            (Payload.mk 1 (Str "a@example.org") "AAA")
            (User.mk 1 (Str "A") (Str "a@example.org") "AAA" Null)
            eq_refl eq_refl eq_refl _).
  discriminate.
Defined.

(** X20: the public routes agree on which codes exist.  For a code no user
    has, [GET /click/:code] and [GET /stats/:code] answer 404 and a click
    records nothing; for a code some user has, neither answers an error.
    [POST /order] with a truthy amount and that code as a non-empty string
    answers 404 in exactly the same case. *)
Theorem routes_agree_on_unknown_codes :
  forall (StringToNumber : string -> float) (st : state) (code : string)
         (amount buyerEmail : value),
    ((exists error, snd (get_click st code) = Error 404 error)
     <-> forall u, In u (users st) -> User.code u <> code)
    /\ ((exists error, snd (get_stats st code) = Error 404 error)
        <-> forall u, In u (users st) -> User.code u <> code)
    /\ ((forall u, In u (users st) -> User.code u <> code) ->
        fst (get_click st code) = st)
    /\ (forall status error,
          snd (get_click st code) = Error status error -> status = 404)
    /\ (truthy amount = true -> code <> EmptyString ->
        ((exists error,
             snd (post_order StringToNumber st
                    (mkOrderBody amount (Str code) buyerEmail))
             = Error 404 error)
         <-> forall u, In u (users st) -> User.code u <> code)).
Proof.
  intros StringToNumber st code amount buyerEmail.
  pose proof (findUserByCode_first (users st) (Str code)) as Hfirst.
  assert (Hnone : findUserByCode (users st) (Str code) = None
                  <-> forall u, In u (users st) -> User.code u <> code).
  { destruct (findUserByCode (users st) (Str code)) as [u |] eqn:Hf.
    - destruct Hfirst as (Hc & before & after & Hus & _).
      split; [discriminate |]. intros H. exfalso.
      apply (H u); [rewrite Hus; apply in_elt | congruence].
    - split; [| reflexivity]. intros _ u Hin Heq.
      apply (Hfirst u Hin). congruence. }
  unfold get_click, get_stats.
  split; [| split; [| split; [| split]]].
  - rewrite <- Hnone.
    destruct (findUserByCode (users st) (Str code)); cbn [snd];
      split; try discriminate; eauto.
    intros (error & H). discriminate.
  - rewrite <- Hnone.
    destruct (findUserByCode (users st) (Str code)); cbn [snd];
      split; try discriminate; eauto.
    intros (error & H). discriminate.
  - intros H. apply Hnone in H. rewrite H. reflexivity.
  - intros status error.
    destruct (findUserByCode (users st) (Str code)); cbn [snd];
      [discriminate | intros H; now injection H].
  - intros Ha Hne. rewrite <- Hnone.
    assert (Hc : truthy (Str code) = true).
    { cbn [truthy]. destruct (code =? EmptyString)%string eqn:E;
        [apply String.eqb_eq in E; contradiction | reflexivity]. }
    destruct (post_order_cases StringToNumber st
                (mkOrderBody amount (Str code) buyerEmail))
      as [(Hfalsy & _) | [(_ & _ & Hf & Heq) | (owner & _ & _ & Hf)]];
      cbn [body_amount body_code] in *.
    + rewrite Ha, Hc in Hfalsy. discriminate.
    + rewrite Heq. cbn [snd]. split; eauto.
    + rewrite (post_order_created StringToNumber st
                 (mkOrderBody amount (Str code) buyerEmail) owner Ha Hc Hf).
      cbv zeta. cbn [snd]. rewrite Hf.
      split; [intros (error & H); discriminate | discriminate].
Qed.
